(** * NRF_AAR: the accelerated address resolver of the nRF HW models

    A shallow embedding of [src/HW_models/NRF_AAR.c].  The C file keeps the
    peripheral in file-scope variables and talks to the rest of the simulator
    through calls (PPI, interrupt controller, HW scheduler, AES).  Here the
    variables are one record threaded through a state monad, and every store
    to the register block and every call out of the file is appended, in
    program order, to a log kept in that record.

    Integers.  Registers are [uint32_t], the timer is a [bs_time_t], the loop
    index and the latched index are [int].  All are carried as [Z]; the
    conversions the C performs are written where they happen ([to_int],
    [to_uint32], [to_time]).  The [int] product [6 * n_irks] is reduced to
    an [int] the way the compiled code does it, in two's complement
    ([to_int]); the theorems about the completion time carry the range in
    which it does not overflow.  The loop index ([i++], [i+1], [16*i]) is
    left on [Z]: that is the C's [int i] as long as NIRK is at most
    [INT_MAX], the range the theorems about a full pass over the list carry.
    The unaligned [uint32_t] loads are those of a little-endian host.

    Calls.  A call out of the file is taken to return without running any
    function of this file in between (the PPI could be wired to do so; that
    wiring is not part of this file).  The [bs_trace_raw_time] calls only
    print and are left out. *)

From Stdlib Require Import ZArith List Bool Lia.
From Stdlib.Strings Require Import Byte.
From ExtLib Require Import Structures.Monad Structures.MonadState
  Data.Monads.StateMonad.
Import ListNotations.
Import MonadNotation.
Local Open Scope Z_scope.
Local Open Scope monad_scope.

(** ** Machine integers *)

Definition to_uint32 (z : Z) : Z := z mod 2 ^ 32.

(** [uint32_t] to [int]: two's complement, as every supported compiler does. *)
Definition to_int (z : Z) : Z := (z + 2 ^ 31) mod 2 ^ 32 - 2 ^ 31.

Definition INT_MAX : Z := 2 ^ 31 - 1.

Definition INT_MIN : Z := - 2 ^ 31.

(** [~x] on a [uint32_t]. *)
Definition not32 (z : Z) : Z := Z.lxor z 0xFFFFFFFF.

(** Modelled from the spec: the pending completion time is "a simulated-time
    value or none".  [bs_time_t] and [TIME_NEVER] are declared in
    [NHW_types.h], which is not among the sources; they are taken as the
    simulator has them, an unsigned 64-bit count whose largest value is the
    "none" mark. *)
Definition to_time (z : Z) : Z := z mod 2 ^ 64.

(** Modelled from the spec: the "none" of the pending completion time; see
    [to_time] for where the value comes from. *)
Definition TIME_NEVER : Z := 2 ^ 64 - 1.

#[global] Arguments to_uint32 : simpl never.
#[global] Arguments to_int : simpl never.
#[global] Arguments to_time : simpl never.
#[global] Arguments TIME_NEVER : simpl never.

(** ** Bytes and memory *)

Definition u8 (b : byte) : Z := Z.of_N (Byte.to_N b).

Definition byte_of_Z (z : Z) : byte :=
  match Byte.of_N (Z.to_N z) with
  | Some b => b
  | None => x00
  end.

(** The RAM the pointer registers refer to; the peripheral only reads it. *)
Definition memory := Z -> byte.

(** [*(uint32_t* )p] on a little-endian host. *)
Definition load32 (mem : memory) (p : Z) : Z :=
  u8 (mem p) + 2 ^ 8 * u8 (mem (p + 1)) + 2 ^ 16 * u8 (mem (p + 2))
  + 2 ^ 24 * u8 (mem (p + 3)).

Fixpoint load_bytes (mem : memory) (p : Z) (n : nat) : list byte :=
  match n with
  | O => []
  | S n' => mem p :: load_bytes mem (p + 1) n'
  end.

(** ** The register block

    The fields of [NRF_AAR_Type] that the file reads or writes. *)

Record NRF_AAR_Type := mkRegs {
  TASKS_START : Z;
  TASKS_STOP : Z;
  EVENTS_END : Z;
  EVENTS_RESOLVED : Z;
  EVENTS_NOTRESOLVED : Z;
  INTENSET : Z;
  INTENCLR : Z;
  STATUS : Z;
  ENABLE : Z;
  NIRK : Z;
  IRKPTR : Z;
  ADDRPTR : Z
}.

(** Registers the file stores to. *)
Inductive aar_reg :=
| rTASKS_START | rTASKS_STOP
| rEVENTS_END | rEVENTS_RESOLVED | rEVENTS_NOTRESOLVED
| rINTENSET | rINTENCLR | rSTATUS.

Definition write_reg (r : aar_reg) (v : Z) (g : NRF_AAR_Type) : NRF_AAR_Type :=
  match g with
  | mkRegs ts tp ee er en iset iclr st ena nirk irkp addrp =>
    match r with
    | rTASKS_START => mkRegs v tp ee er en iset iclr st ena nirk irkp addrp
    | rTASKS_STOP => mkRegs ts v ee er en iset iclr st ena nirk irkp addrp
    | rEVENTS_END => mkRegs ts tp v er en iset iclr st ena nirk irkp addrp
    | rEVENTS_RESOLVED => mkRegs ts tp ee v en iset iclr st ena nirk irkp addrp
    | rEVENTS_NOTRESOLVED => mkRegs ts tp ee er v iset iclr st ena nirk irkp addrp
    | rINTENSET => mkRegs ts tp ee er en v iclr st ena nirk irkp addrp
    | rINTENCLR => mkRegs ts tp ee er en iset v st ena nirk irkp addrp
    | rSTATUS => mkRegs ts tp ee er en iset iclr v ena nirk irkp addrp
    end
  end.

(** [memset(&NRF_AAR_regs, 0, sizeof(NRF_AAR_regs))] *)
Definition regs_zero : NRF_AAR_Type := mkRegs 0 0 0 0 0 0 0 0 0 0 0 0.

(** ** What the rest of the simulator sees *)

(** The PPI event identifiers this file raises. *)
Inductive ppi_event_id :=
| AAR_EVENTS_END | AAR_EVENTS_RESOLVED | AAR_EVENTS_NOTRESOLVED.

Inductive effect :=
| reg_write (r : aar_reg) (v : Z)          (* NRF_AAR_regs.r = v *)
| regs_memset                               (* memset of the whole block *)
| nrf_ppi_event (e : ppi_event_id)
| hw_irq_ctrl_set_irq                       (* always CCM_AAR_IRQn *)
| nsi_hws_find_next_event (timer : Z)       (* the scheduler re-reads Timer_AAR *)
| aes_128 (key block : list byte).          (* BLECrypt_if_aes_128 *)

(** ** The file-scope variables *)

Record AAR_state := mkState {
  NRF_AAR_regs : NRF_AAR_Type;
  Timer_AAR : Z;
  AAR_INTEN : Z;
  AAR_Running : bool;
  matching_irk : Z;
  log : list effect
}.

Definition set_regs (g : NRF_AAR_Type) (s : AAR_state) : AAR_state :=
  mkState g (Timer_AAR s) (AAR_INTEN s) (AAR_Running s) (matching_irk s) (log s).
Definition set_Timer_AAR (t : Z) (s : AAR_state) : AAR_state :=
  mkState (NRF_AAR_regs s) t (AAR_INTEN s) (AAR_Running s) (matching_irk s) (log s).
Definition set_AAR_INTEN (m : Z) (s : AAR_state) : AAR_state :=
  mkState (NRF_AAR_regs s) (Timer_AAR s) m (AAR_Running s) (matching_irk s) (log s).
Definition set_AAR_Running (b : bool) (s : AAR_state) : AAR_state :=
  mkState (NRF_AAR_regs s) (Timer_AAR s) (AAR_INTEN s) b (matching_irk s) (log s).
Definition set_matching_irk (i : Z) (s : AAR_state) : AAR_state :=
  mkState (NRF_AAR_regs s) (Timer_AAR s) (AAR_INTEN s) (AAR_Running s) i (log s).
Definition emit (e : effect) (s : AAR_state) : AAR_state :=
  mkState (NRF_AAR_regs s) (Timer_AAR s) (AAR_INTEN s) (AAR_Running s)
          (matching_irk s) (log s ++ [e]).

(** ** What the file takes from elsewhere

    The AES-128 primitive of [BLECrypt_if.h] (key, block, result: 16 bytes
    each, big endian) and the interrupt masks of the MDK's bitfield header. *)

Class Externals := {
  BLECrypt_if_aes_128 : list byte -> list byte -> list byte;
  AAR_INTENSET_END_Msk : Z;
  AAR_INTENCLR_RESOLVED_Msk : Z;
  AAR_INTENCLR_NOTRESOLVED_Msk : Z
}.

(** ** The monad *)

Definition AAR := state AAR_state.

Definition upd (f : AAR_state -> AAR_state) : AAR unit :=
  s <- get ;; put (f s).

Definition store (r : aar_reg) (v : Z) : AAR unit :=
  upd (fun s => emit (reg_write r v) (set_regs (write_reg r v (NRF_AAR_regs s)) s)).

Definition call (e : effect) : AAR unit := upd (emit e).

Definition when (b : bool) (c : AAR unit) : AAR unit :=
  if b then c else ret tt.

(** [if (x)] on an integer. *)
Definition nonzero (z : Z) : bool := negb (z =? 0).

(** [nsi_hws_find_next_event()]: the scheduler looks at [Timer_AAR] again. *)
Definition find_next_event : AAR unit :=
  t <- gets Timer_AAR ;;
  call (nsi_hws_find_next_event t).

(** ** NRF_AAR.c *)

Definition nrf_aar_init : AAR unit :=
  upd (fun s => emit regs_memset (set_regs regs_zero s)) ;;
  upd (set_AAR_INTEN 0) ;;
  upd (set_Timer_AAR TIME_NEVER) ;;
  upd (set_AAR_Running false).

Definition signal_EVENTS_END {ext : Externals} : AAR unit :=
  store rEVENTS_END 1 ;;
  call (nrf_ppi_event AAR_EVENTS_END) ;;
  inten <- gets AAR_INTEN ;;
  when (nonzero (Z.land inten AAR_INTENSET_END_Msk)) (call hw_irq_ctrl_set_irq).

Definition signal_EVENTS_RESOLVED {ext : Externals} : AAR unit :=
  store rEVENTS_RESOLVED 1 ;;
  call (nrf_ppi_event AAR_EVENTS_RESOLVED) ;;
  inten <- gets AAR_INTEN ;;
  when (nonzero (Z.land inten AAR_INTENCLR_RESOLVED_Msk)) (call hw_irq_ctrl_set_irq).

Definition signal_EVENTS_NOTRESOLVED {ext : Externals} : AAR unit :=
  store rEVENTS_NOTRESOLVED 1 ;;
  call (nrf_ppi_event AAR_EVENTS_NOTRESOLVED) ;;
  inten <- gets AAR_INTEN ;;
  when (nonzero (Z.land inten AAR_INTENCLR_NOTRESOLVED_Msk)) (call hw_irq_ctrl_set_irq).

(** *** nrf_aar_resolve *)

(** [prand = *(uint32_t* )(address_ptr+3) & 0xFFFFFF] *)
Definition prand_at (mem : memory) (address_ptr : Z) : Z :=
  Z.land (load32 mem (address_ptr + 3)) 0xFFFFFF.

(** [hash = *(uint32_t* )address_ptr & 0xFFFFFF] *)
Definition hash_at (mem : memory) (address_ptr : Z) : Z :=
  Z.land (load32 mem address_ptr) 0xFFFFFF.

(** [memset(prand_buf,0,16)] and the three stores to [prand_buf[13..15]]. *)
Definition prand_buf_of (prand : Z) : list byte :=
  repeat x00 13 ++
  [ byte_of_Z (Z.land (Z.shiftr prand 16) 0xFF);
    byte_of_Z (Z.land (Z.shiftr prand 8) 0xFF);
    byte_of_Z (Z.land prand 0xFF) ].

(** [hash_check_buf[15] | hash_check_buf[14] << 8 | hash_check_buf[13] << 16] *)
Definition hash_check_of (hash_check_buf : list byte) : Z :=
  Z.lor (Z.lor (u8 (nth 15 hash_check_buf x00))
               (Z.shiftl (u8 (nth 14 hash_check_buf x00)) 8))
        (Z.shiftl (u8 (nth 13 hash_check_buf x00)) 16).

(** The 16 bytes at [irkptr = IRKPTR + 16*i]. *)
Definition irk_at (mem : memory) (g : NRF_AAR_Type) (i : Z) : list byte :=
  load_bytes mem (IRKPTR g + 16 * i) 16.

(** The hash check the loop computes for the key at index [i]. *)
Definition irk_hash_check {ext : Externals} (mem : memory) (g : NRF_AAR_Type)
    (prand_buf : list byte) (i : Z) : Z :=
  hash_check_of (BLECrypt_if_aes_128 (irk_at mem g i) prand_buf).

(** The body of the [for] loop, from index [i], with [todo] iterations left
    before [i < NIRK] fails.  The registers are not touched while it runs,
    so they are read once, by the caller.  The index and the count returned
    are on [Z]; they are the C's [int i] as long as NIRK is at most
    [INT_MAX]. *)
Fixpoint resolve_loop {ext : Externals} (mem : memory) (g : NRF_AAR_Type)
    (prand_buf : list byte) (todo : nat) (i : Z) : AAR Z :=
  match todo with
  | O => ret i
  | S todo' =>
    let irk := irk_at mem g i in
    call (aes_128 irk prand_buf) ;;
    let hash_check_buf := BLECrypt_if_aes_128 irk prand_buf in
    let hash_check := hash_check_of hash_check_buf in
    let hash := hash_at mem (ADDRPTR g + 3) in
    if hash =? hash_check then
      upd (set_matching_irk i) ;;
      ret (i + 1)
    else resolve_loop mem g prand_buf todo' (i + 1)
  end.

(** Returns the count; [*good_irk] is always [matching_irk]. *)
Definition nrf_aar_resolve {ext : Externals} (mem : memory) : AAR Z :=
  g <- gets NRF_AAR_regs ;;
  let address_ptr := ADDRPTR g + 3 in
  upd (set_matching_irk (-1)) ;;
  let prand := prand_at mem address_ptr in
  if negb (Z.shiftr prand 22 =? 1) then ret (to_int (NIRK g))
  else resolve_loop mem g (prand_buf_of prand) (Z.to_nat (NIRK g)) 0.

(** *** Tasks *)

(** [now] is what [nsi_hws_get_time()] returns.  [6 * n_irks] is an [int]
    times an [int]: the product is an [int] too, and only then widened and
    added to the time. *)
Definition nrf_aar_TASK_START {ext : Externals} (now : Z) (mem : memory) : AAR unit :=
  g <- gets NRF_AAR_regs ;;
  if negb (ENABLE g =? 3) then ret tt
  else
    upd (set_AAR_Running true) ;;
    n_irks <- nrf_aar_resolve mem ;;
    upd (set_Timer_AAR (to_time (now + 1 + to_int (6 * n_irks)))) ;;
    find_next_event.

Definition nrf_aar_TASK_STOP {ext : Externals} : AAR unit :=
  running <- gets AAR_Running ;;
  if negb running then ret tt
  else
    upd (set_AAR_Running false) ;;
    upd (set_Timer_AAR TIME_NEVER) ;;
    find_next_event ;;
    signal_EVENTS_END.

(** *** Register write side effects *)

Definition nrf_aar_regw_sideeffects_INTENSET : AAR unit :=
  g <- gets NRF_AAR_regs ;;
  when (nonzero (INTENSET g))
    (upd (fun s => set_AAR_INTEN (Z.lor (AAR_INTEN s) (INTENSET g)) s) ;;
     inten <- gets AAR_INTEN ;;
     store rINTENSET inten).

Definition nrf_aar_regw_sideeffects_INTENCLR : AAR unit :=
  g <- gets NRF_AAR_regs ;;
  when (nonzero (INTENCLR g))
    (upd (fun s => set_AAR_INTEN (Z.land (AAR_INTEN s) (not32 (INTENCLR g))) s) ;;
     inten <- gets AAR_INTEN ;;
     store rINTENSET inten ;;
     store rINTENCLR 0).

Definition nrf_aar_regw_sideeffects_TASKS_START {ext : Externals}
    (now : Z) (mem : memory) : AAR unit :=
  g <- gets NRF_AAR_regs ;;
  when (nonzero (TASKS_START g))
    (store rTASKS_START 0 ;;
     nrf_aar_TASK_START now mem).

Definition nrf_aar_regw_sideeffects_TASKS_STOP {ext : Externals} : AAR unit :=
  g <- gets NRF_AAR_regs ;;
  when (nonzero (TASKS_STOP g))
    (store rTASKS_STOP 0 ;;
     nrf_aar_TASK_STOP).

(** *** Completion *)

Definition nrf_aar_timer_triggered {ext : Externals} : AAR unit :=
  upd (set_AAR_Running false) ;;
  upd (set_Timer_AAR TIME_NEVER) ;;
  find_next_event ;;
  irk <- gets matching_irk ;;
  (if negb (irk =? -1) then
     store rSTATUS (to_uint32 irk) ;;
     signal_EVENTS_RESOLVED
   else signal_EVENTS_NOTRESOLVED) ;;
  signal_EVENTS_END.

(** ** Driving the peripheral *)

(** Modelled from the spec: "a value written to a control field immediately
    invokes behavior".  The HAL that performs the write is not among the
    sources: the value lands in the register, then the register's
    side-effect function runs. *)
Definition regw (r : aar_reg) (v : Z) (sideeffects : AAR unit) : AAR unit :=
  upd (fun s => set_regs (write_reg r v (NRF_AAR_regs s)) s) ;;
  sideeffects.

Definition run {A} (c : AAR A) (s : AAR_state) : AAR_state := snd (runState c s).
Definition result {A} (c : AAR A) (s : AAR_state) : A := fst (runState c s).

(** ** States the peripheral can be in *)

(** What a Start is taken to find: a list so long that six times its length
    is still an [int] (NIRK at most 357913941), and a time [now] from which
    the longest resolution ends before [TIME_NEVER]. *)
Definition start_in_range (now : Z) (s : AAR_state) : Prop :=
  0 <= now /\
  0 <= NIRK (NRF_AAR_regs s) /\
  6 * NIRK (NRF_AAR_regs s) <= INT_MAX /\
  now + 1 + 6 * NIRK (NRF_AAR_regs s) < TIME_NEVER.

(** Firmware stores to the register block at will; the tasks, the register
    side effects and the completion run in any order (the completion even
    when the scheduler would not run it). *)
Inductive step {ext : Externals} : AAR_state -> AAR_state -> Prop :=
| step_firmware g s :
    step s (set_regs g s)
| step_TASK_START now mem s :
    start_in_range now s ->
    step s (run (nrf_aar_TASK_START now mem) s)
| step_TASK_STOP s :
    step s (run nrf_aar_TASK_STOP s)
| step_timer s :
    step s (run nrf_aar_timer_triggered s)
| step_INTENSET s :
    step s (run nrf_aar_regw_sideeffects_INTENSET s)
| step_INTENCLR s :
    step s (run nrf_aar_regw_sideeffects_INTENCLR s)
| step_TASKS_START now mem s :
    start_in_range now s ->
    step s (run (nrf_aar_regw_sideeffects_TASKS_START now mem) s)
| step_TASKS_STOP s :
    step s (run nrf_aar_regw_sideeffects_TASKS_STOP s).

(** A reset ([nrf_aar_init], from whatever came before), then steps. *)
Inductive reachable {ext : Externals} : AAR_state -> Prop :=
| reach_init s : reachable (run nrf_aar_init s)
| reach_step s s' : reachable s -> step s s' -> reachable s'.

(** The timer is armed exactly when the peripheral is running. *)
Definition pending_iff_running (s : AAR_state) : Prop :=
  Timer_AAR s <> TIME_NEVER <-> AAR_Running s = true.

(** ** Reading the log *)

Definition effect_eqb_ppi (e : ppi_event_id) (x : effect) : bool :=
  match x, e with
  | nrf_ppi_event AAR_EVENTS_END, AAR_EVENTS_END => true
  | nrf_ppi_event AAR_EVENTS_RESOLVED, AAR_EVENTS_RESOLVED => true
  | nrf_ppi_event AAR_EVENTS_NOTRESOLVED, AAR_EVENTS_NOTRESOLVED => true
  | _, _ => false
  end.

(** How many times event [e] was raised in [l]. *)
Definition fired (e : ppi_event_id) (l : list effect) : nat :=
  length (filter (effect_eqb_ppi e) l).

Definition aar_reg_eqb (a b : aar_reg) : bool :=
  match a, b with
  | rTASKS_START, rTASKS_START | rTASKS_STOP, rTASKS_STOP
  | rEVENTS_END, rEVENTS_END | rEVENTS_RESOLVED, rEVENTS_RESOLVED
  | rEVENTS_NOTRESOLVED, rEVENTS_NOTRESOLVED
  | rINTENSET, rINTENSET | rINTENCLR, rINTENCLR | rSTATUS, rSTATUS => true
  | _, _ => false
  end.

(** How many stores to register [r] the log [l] holds. *)
Definition stores_to (r : aar_reg) (l : list effect) : nat :=
  length (filter (fun x => match x with
                           | reg_write r' _ => aar_reg_eqb r r'
                           | _ => false
                           end) l).

Definition is_aes (x : effect) : bool :=
  match x with aes_128 _ _ => true | _ => false end.

(** How many AES-128 calls [l] holds. *)
Definition crypto_calls (l : list effect) : nat := length (filter is_aes l).

(** Registers, timer, mask and running flag are the same in both states. *)
Definition unchanged_hw (s s' : AAR_state) : Prop :=
  NRF_AAR_regs s' = NRF_AAR_regs s /\ Timer_AAR s' = Timer_AAR s /\
  AAR_INTEN s' = AAR_INTEN s /\ AAR_Running s' = AAR_Running s.

(** [a] happens in [l]; [b] does not happen before it and does after it. *)
Definition before (a b : effect) (l : list effect) : Prop :=
  exists l1 l2, l = l1 ++ a :: l2 /\ ~ In b l1 /\ In b l2.

(** The interrupt line is raised when the mask holds the event's bit. *)
Definition irq_if (b : bool) : list effect :=
  if b then [hw_irq_ctrl_set_irq] else [].

(** What one [signal_EVENTS_*] leaves in the log. *)
Definition signalled (r : aar_reg) (e : ppi_event_id) (inten msk : Z) : list effect :=
  [reg_write r 1; nrf_ppi_event e] ++ irq_if (nonzero (Z.land inten msk)).

(** The AES calls of the loop for [n] keys from index [i] on, in order. *)
Fixpoint aes_calls (mem : memory) (g : NRF_AAR_Type) (prand_buf : list byte)
    (i : Z) (n : nat) : list effect :=
  match n with
  | O => []
  | S n' => aes_128 (irk_at mem g i) prand_buf :: aes_calls mem g prand_buf (i + 1) n'
  end.

Definition is_irq (x : effect) : bool :=
  match x with hw_irq_ctrl_set_irq => true | _ => false end.

(** How many times [l] raises the interrupt line. *)
Definition irq_calls (l : list effect) : nat := length (filter is_irq l).

Definition b2n (b : bool) : nat := if b then 1%nat else 0%nat.

(** The register field [f] is as it was, or holds 1. *)
Definition kept_or_set (f : NRF_AAR_Type -> Z) (s s' : AAR_state) : Prop :=
  f (NRF_AAR_regs s') = f (NRF_AAR_regs s) \/ f (NRF_AAR_regs s') = 1.

(** None of the three event flags has been cleared between [s] and [s']. *)
Definition events_kept_or_set (s s' : AAR_state) : Prop :=
  kept_or_set EVENTS_END s s' /\ kept_or_set EVENTS_RESOLVED s s' /\
  kept_or_set EVENTS_NOTRESOLVED s s'.

(** The address is a resolvable private one: [prand >> 22 == 0x01]. *)
Definition resolvable (mem : memory) (g : NRF_AAR_Type) : Prop :=
  Z.shiftr (prand_at mem (ADDRPTR g + 3)) 22 = 1.

(** ** Sample data

    A stand-in cipher (bytewise sum of key and block), a RAM image holding a
    resolvable address at [0x103] whose hash is that of the second of three
    keys at [0x200], and an all-zero RAM image, whose address is not
    resolvable. *)

Definition sum_cipher (key block : list byte) : list byte :=
  map (fun kb => byte_of_Z ((u8 (fst kb) + u8 (snd kb)) mod 256)) (combine key block).

Definition sample_externals : Externals :=
  {| BLECrypt_if_aes_128 := sum_cipher;
     AAR_INTENSET_END_Msk := 1;
     AAR_INTENCLR_RESOLVED_Msk := 2;
     AAR_INTENCLR_NOTRESOLVED_Msk := 4 |}.

Definition sample_mem : memory := fun p =>
  if (0x103 <=? p) && (p <? 0x109)
  then nth (Z.to_nat (p - 0x103)) [x14; x24; x41; x11; x22; x40] x00
  else if p =? 0x21d then x01
  else if p =? 0x21e then x02
  else if p =? 0x21f then x03
  else if (0x220 <=? p) && (p <? 0x230) then xff
  else x00.

Definition zero_mem : memory := fun _ => x00.

(** The variables as the C initialisers leave them. *)
Definition boot_state : AAR_state :=
  mkState regs_zero TIME_NEVER 0 false 0 [].

(** ENABLE = 3, NIRK = 3, IRKPTR = 0x200, ADDRPTR = 0x100. *)
Definition sample_regs : NRF_AAR_Type :=
  mkRegs 0 0 0 0 0 0 0 0 3 3 0x200 0x100.

Definition idle_state : AAR_state :=
  set_regs sample_regs (run nrf_aar_init boot_state).

(** After a Start at time 0 on [sample_mem]. *)
Definition running_state : AAR_state :=
  run (nrf_aar_TASK_START (ext := sample_externals) 0 sample_mem) idle_state.

(** ENABLE = 3 and an empty key list. *)
Definition no_keys_state : AAR_state :=
  set_regs (mkRegs 0 0 0 0 0 0 0 0 3 0 0x200 0x100) (run nrf_aar_init boot_state).

(** [sample_mem] with other bytes in the header before the address, right
    after the address, and after the three keys. *)
Definition other_mem : memory := fun p =>
  if p <? 0x103 then xaa
  else if p =? 0x109 then xff
  else if 0x230 <=? p then x55
  else sample_mem p.

(** Three keys none of which matches the address of [sample_mem]: the key
    list is taken from where the RAM image holds zeros. *)
Definition unmatched_state : AAR_state :=
  set_regs (mkRegs 0 0 0 0 0 0 0 0 3 3 0x300 0x100) (run nrf_aar_init boot_state).

(** ENABLE = 3 and NIRK = 400000000, six times which is no [int]. *)
Definition long_list_state : AAR_state :=
  set_regs (mkRegs 0 0 0 0 0 0 0 0 3 400000000 0x200 0x100)
           (run nrf_aar_init boot_state).

(** * Proofs *)

(** ** Tactics *)

Ltac unfold_signals :=
  unfold signal_EVENTS_END, signal_EVENTS_RESOLVED, signal_EVENTS_NOTRESOLVED,
    find_next_event, store, call, upd, when, signalled, irq_if in *.

(** Runs the monad's plumbing and nothing else. *)
Ltac run_monad :=
  unfold upd, gets;
  cbn [bind ret Monad_state runState get put MonadState_state fst snd].

(** ** Interrupt mask *)

(** [not32] is "and not" on 32-bit values. *)
Lemma land_not32 m v :
  0 <= m < 2 ^ 32 -> Z.land m (not32 v) = Z.ldiff m v.
Proof.
  intros Hm. apply Z.bits_inj'. intros n Hn.
  unfold not32. rewrite Z.land_spec, Z.ldiff_spec, Z.lxor_spec.
  change 0xFFFFFFFF with (Z.ones 32).
  destruct (Z.ltb_spec n 32) as [Hlt | Hge].
  - rewrite Z.ones_spec_low by lia. now rewrite xorb_true_r.
  - assert (Z.testbit m n = false) as ->; [| reflexivity].
    destruct (Z.eq_dec m 0) as [-> | Hnz]; [apply Z.bits_0 |].
    apply Z.bits_above_log2; [lia |].
    apply Z.lt_le_trans with 32; [| lia].
    apply Z.log2_lt_pow2; lia.
Qed.

(** C8: writing a nonzero [v] to INTENSET makes the mask [mask | v] and the
    register read back the mask; a second write of [v] leaves the mask as the
    first did.  Writing a nonzero [v] to INTENCLR makes the mask
    [mask & ~v], INTENCLR read back 0 and INTENSET read back the mask; a
    second write of [v] leaves the mask as the first did. *)
Theorem inten_writes_idempotent (v : Z) (s : AAR_state) :
  v <> 0 ->
  let set1 := run (regw rINTENSET v nrf_aar_regw_sideeffects_INTENSET) s in
  let set2 := run (regw rINTENSET v nrf_aar_regw_sideeffects_INTENSET) set1 in
  let clr1 := run (regw rINTENCLR v nrf_aar_regw_sideeffects_INTENCLR) s in
  let clr2 := run (regw rINTENCLR v nrf_aar_regw_sideeffects_INTENCLR) clr1 in
  (AAR_INTEN set1 = Z.lor (AAR_INTEN s) v /\
   AAR_INTEN set2 = AAR_INTEN set1 /\
   INTENSET (NRF_AAR_regs set1) = AAR_INTEN set1) /\
  (AAR_INTEN clr1 = Z.land (AAR_INTEN s) (not32 v) /\
   AAR_INTEN clr2 = AAR_INTEN clr1 /\
   INTENCLR (NRF_AAR_regs clr1) = 0 /\
   INTENSET (NRF_AAR_regs clr1) = AAR_INTEN clr1).
Proof.
  intros Hv.
  assert (Hnz : nonzero v = true).
  { unfold nonzero. destruct (Z.eqb_spec v 0); [contradiction | reflexivity]. }
  destruct s as [g t m r k l]; destruct g.
  unfold run, regw, nrf_aar_regw_sideeffects_INTENSET,
    nrf_aar_regw_sideeffects_INTENCLR, store, upd, when; simpl.
  rewrite !Hnz; simpl. rewrite !Hnz; simpl.
  repeat split.
  - rewrite <- Z.lor_assoc, Z.lor_diag. reflexivity.
  - rewrite <- Z.land_assoc, Z.land_diag. reflexivity.
Qed.

(** C10: a write of zero to INTENSET or to INTENCLR leaves the zero in the
    written register and touches nothing else: no change of the mask, no
    refresh of either register from the mask, nothing logged. *)
Theorem inten_zero_write_noop (s : AAR_state) :
  runState (regw rINTENSET 0 nrf_aar_regw_sideeffects_INTENSET) s
    = (tt, set_regs (write_reg rINTENSET 0 (NRF_AAR_regs s)) s) /\
  runState (regw rINTENCLR 0 nrf_aar_regw_sideeffects_INTENCLR) s
    = (tt, set_regs (write_reg rINTENCLR 0 (NRF_AAR_regs s)) s).
Proof.
  destruct s as [g t m r k l]; destruct g.
  split; reflexivity.
Qed.

(** ** Stop *)

Lemma stop_noop {ext : Externals} s :
  AAR_Running s = false -> runState nrf_aar_TASK_STOP s = (tt, s).
Proof.
  intros Hr. unfold nrf_aar_TASK_STOP; run_monad. now rewrite Hr.
Qed.

(** C6: a Stop while Running clears the running flag and the pending
    completion time, tells the scheduler, and signals End once and neither
    Resolved nor NotResolved; a Stop while not Running changes nothing. *)
Theorem stop_cancels_and_ends {ext : Externals} (s : AAR_state) :
  let s' := run nrf_aar_TASK_STOP s in
  if AAR_Running s then
    AAR_Running s' = false /\
    Timer_AAR s' = TIME_NEVER /\
    exists evs,
      log s' = log s ++ nsi_hws_find_next_event TIME_NEVER :: evs /\
      evs = signalled rEVENTS_END AAR_EVENTS_END (AAR_INTEN s) AAR_INTENSET_END_Msk /\
      fired AAR_EVENTS_END evs = 1%nat /\
      fired AAR_EVENTS_RESOLVED evs = 0%nat /\
      fired AAR_EVENTS_NOTRESOLVED evs = 0%nat /\
      NRF_AAR_regs s' = write_reg rEVENTS_END 1 (NRF_AAR_regs s)
  else runState nrf_aar_TASK_STOP s = (tt, s).
Proof.
  destruct s as [g t m r k l]; destruct r; simpl; [| reflexivity].
  unfold run, nrf_aar_TASK_STOP; unfold_signals; simpl.
  destruct (nonzero _); simpl;
    (repeat split; eexists; repeat split; rewrite <- ?app_assoc; reflexivity).
Qed.

(** ** Resolution *)

Section Resolve.
Context {ext : Externals}.
Variables (mem : memory) (g : NRF_AAR_Type) (prand_buf : list byte).

Let hash := hash_at mem (ADDRPTR g + 3).
Let hash_check (i : Z) := irk_hash_check mem g prand_buf i.

(** The loop leaves everything but [matching_irk] and the log alone, calls
    the cipher once per key it looks at, and stops at the first key whose
    hash check equals the hash. *)
Lemma resolve_loop_spec (todo : nat) : forall (i : Z) (s : AAR_state),
  let n := result (resolve_loop mem g prand_buf todo i) s in
  let s' := run (resolve_loop mem g prand_buf todo i) s in
  unchanged_hw s s' /\
  (exists evs, log s' = log s ++ evs /\ forallb is_aes evs = true /\
               Z.of_nat (length evs) = n - i) /\
  ((matching_irk s' = matching_irk s /\ n = i + Z.of_nat todo /\
    forall j, i <= j < i + Z.of_nat todo -> hash_check j <> hash)
   \/
   (i <= matching_irk s' < i + Z.of_nat todo /\ n = matching_irk s' + 1 /\
    hash_check (matching_irk s') = hash /\
    forall j, i <= j < matching_irk s' -> hash_check j <> hash)).
Proof.
  induction todo as [| todo' IH]; intros i s.
  - unfold result, run; simpl. split; [repeat split |]. split.
    + exists []. rewrite app_nil_r. repeat split; simpl; lia.
    + left. repeat split; lia.
  - unfold result, run. cbn [resolve_loop].
    unfold call; run_monad.
    fold hash. change (hash_check_of (BLECrypt_if_aes_128 (irk_at mem g i) prand_buf))
      with (hash_check i).
    destruct (Z.eqb_spec hash (hash_check i)) as [Heq | Hne].
    + cbn. split; [repeat split |]. split.
      * exists [aes_128 (irk_at mem g i) prand_buf]. repeat split; simpl; lia.
      * right. repeat split; try lia; auto.
    + specialize (IH (i + 1) (emit (aes_128 (irk_at mem g i) prand_buf) s)).
      unfold result, run in IH. cbn zeta in IH.
      destruct IH as (Hhw & (evs & Hlog & Haes & Hlen) & Hcase).
      split; [exact Hhw |]. split.
      * exists (aes_128 (irk_at mem g i) prand_buf :: evs).
        rewrite Hlog. simpl. rewrite <- app_assoc. repeat split; auto.
        simpl length. lia.
      * destruct Hcase as [(Hm & Hn & Hall) | (Hr & Hn & Hhit & Hall)].
        -- left. repeat split; auto; try lia.
           intros j Hj. destruct (Z.eq_dec j i) as [-> | Hji]; [congruence |].
           apply Hall; lia.
        -- right. repeat split; auto; try lia.
           intros j Hj. destruct (Z.eq_dec j i) as [-> | Hji]; [congruence |].
           apply Hall; lia.
Qed.
End Resolve.

Lemma u8_range b : 0 <= u8 b < 256.
Proof. unfold u8. pose proof (Byte.to_N_bounded b). lia. Qed.

(** The masked load of [prand] is the three top bytes of the address. *)
Lemma prand_at_bytes mem a :
  prand_at mem a
  = u8 (mem (a + 3)) + 2 ^ 8 * u8 (mem (a + 4)) + 2 ^ 16 * u8 (mem (a + 5)).
Proof.
  unfold prand_at, load32.
  replace (a + 3 + 1) with (a + 4) by lia.
  replace (a + 3 + 2) with (a + 5) by lia.
  change 0xFFFFFF with (Z.ones 24). rewrite Z.land_ones by lia.
  pose proof (u8_range (mem (a + 3))). pose proof (u8_range (mem (a + 4))).
  pose proof (u8_range (mem (a + 5))).
  symmetry. apply Z.mod_unique with (q := u8 (mem (a + 3 + 3))); lia.
Qed.

Lemma top_bits_01 prand :
  Z.shiftr prand 22 = 1 ->
  Z.testbit prand 23 = false /\ Z.testbit prand 22 = true.
Proof.
  intros Hs. split.
  - change 23 with (1 + 22). rewrite <- Z.shiftr_spec by lia. now rewrite Hs.
  - change 22 with (0 + 22) at 1. rewrite <- Z.shiftr_spec by lia. now rewrite Hs.
Qed.

Lemma to_int_small z : 0 <= z <= INT_MAX -> to_int z = z.
Proof.
  unfold to_int, INT_MAX. intros Hz. rewrite Z.mod_small; lia.
Qed.

Lemma to_int_in_range z : INT_MIN <= z <= INT_MAX -> to_int z = z.
Proof.
  unfold to_int, INT_MIN, INT_MAX. intros Hz. rewrite Z.mod_small; lia.
Qed.

Section ResolveCall.
Context {ext : Externals}.
Variable mem : memory.

Lemma resolve_not_resolvable s :
  Z.shiftr (prand_at mem (ADDRPTR (NRF_AAR_regs s) + 3)) 22 <> 1 ->
  runState (nrf_aar_resolve mem) s
  = (to_int (NIRK (NRF_AAR_regs s)), set_matching_irk (-1) s).
Proof.
  intros Hp. unfold nrf_aar_resolve; run_monad.
  destruct (Z.eqb_spec (Z.shiftr (prand_at mem (ADDRPTR (NRF_AAR_regs s) + 3)) 22) 1);
    [contradiction | reflexivity].
Qed.

Lemma resolve_resolvable s :
  let g := NRF_AAR_regs s in
  Z.shiftr (prand_at mem (ADDRPTR g + 3)) 22 = 1 ->
  runState (nrf_aar_resolve mem) s
  = runState (resolve_loop mem g (prand_buf_of (prand_at mem (ADDRPTR g + 3)))
                (Z.to_nat (NIRK g)) 0)
             (set_matching_irk (-1) s).
Proof.
  intros g Hp. unfold nrf_aar_resolve; run_monad. fold g.
  rewrite Hp. reflexivity.
Qed.

(** A resolution touches [matching_irk] and the log, by AES calls only. *)
Lemma resolve_frame s :
  let s' := run (nrf_aar_resolve mem) s in
  unchanged_hw s s' /\
  exists evs, log s' = log s ++ evs /\ forallb is_aes evs = true.
Proof.
  intros s'; subst s'; unfold run.
  destruct (Z.eq_dec (Z.shiftr (prand_at mem (ADDRPTR (NRF_AAR_regs s) + 3)) 22) 1)
    as [Hp | Hp].
  - rewrite (resolve_resolvable s Hp).
    destruct (resolve_loop_spec mem (NRF_AAR_regs s)
                (prand_buf_of (prand_at mem (ADDRPTR (NRF_AAR_regs s) + 3)))
                (Z.to_nat (NIRK (NRF_AAR_regs s))) 0 (set_matching_irk (-1) s))
      as (Hhw & (evs & Hlog & Haes & _) & _).
    split; [exact Hhw | exists evs; split; [exact Hlog | exact Haes]].
  - rewrite (resolve_not_resolvable s Hp). simpl.
    split; [repeat split | exists []; now rewrite app_nil_r].
Qed.

(** On a resolvable address the cipher is called once per key examined. *)
Lemma resolve_crypto_calls s :
  Z.shiftr (prand_at mem (ADDRPTR (NRF_AAR_regs s) + 3)) 22 = 1 ->
  NIRK (NRF_AAR_regs s) <= INT_MAX ->
  exists evs, log (run (nrf_aar_resolve mem) s) = log s ++ evs /\
              Z.of_nat (crypto_calls evs) = result (nrf_aar_resolve mem) s.
Proof.
  intros Hp _. unfold run, result. rewrite (resolve_resolvable s Hp).
  destruct (resolve_loop_spec mem (NRF_AAR_regs s)
              (prand_buf_of (prand_at mem (ADDRPTR (NRF_AAR_regs s) + 3)))
              (Z.to_nat (NIRK (NRF_AAR_regs s))) 0 (set_matching_irk (-1) s))
    as (_ & (evs & Hlog & Haes & Hlen) & _).
  exists evs. split; [exact Hlog |].
  unfold crypto_calls. rewrite (forallb_filter_id is_aes evs Haes).
  unfold result in Hlen. lia.
Qed.

(** The count returned never exceeds NIRK. *)
Lemma resolve_count_range s :
  0 <= NIRK (NRF_AAR_regs s) <= INT_MAX ->
  0 <= result (nrf_aar_resolve mem) s <= NIRK (NRF_AAR_regs s).
Proof.
  intros Hn. unfold result.
  destruct (Z.eq_dec (Z.shiftr (prand_at mem (ADDRPTR (NRF_AAR_regs s) + 3)) 22) 1)
    as [Hp | Hp].
  - rewrite (resolve_resolvable s Hp).
    destruct (resolve_loop_spec mem (NRF_AAR_regs s)
                (prand_buf_of (prand_at mem (ADDRPTR (NRF_AAR_regs s) + 3)))
                (Z.to_nat (NIRK (NRF_AAR_regs s))) 0 (set_matching_irk (-1) s))
      as (_ & _ & [(_ & Hres & _) | (Hr & Hres & _)]);
      unfold result in Hres; rewrite Hres; rewrite Z2Nat.id in * by lia; lia.
  - rewrite (resolve_not_resolvable s Hp). simpl. rewrite to_int_small; lia.
Qed.
End ResolveCall.

(** C2: when a resolution latches an index [i] other than -1, the count it
    returns is [i+1], [i] is below NIRK, the hash check computed for key [i]
    equals the hash of the address, and the hash check of every key before
    [i] differs from it. *)
Theorem resolve_first_match {ext : Externals} (mem : memory) (s : AAR_state) (i : Z) :
  matching_irk (run (nrf_aar_resolve mem) s) = i ->
  i <> -1 ->
  let g := NRF_AAR_regs s in
  let address_ptr := ADDRPTR g + 3 in
  let prand_buf := prand_buf_of (prand_at mem address_ptr) in
  result (nrf_aar_resolve mem) s = i + 1 /\
  0 <= i < NIRK g /\
  irk_hash_check mem g prand_buf i = hash_at mem address_ptr /\
  forall j, 0 <= j < i ->
    irk_hash_check mem g prand_buf j <> hash_at mem address_ptr.
Proof.
  intros Hi Hne g address_ptr prand_buf.
  unfold run, result in *.
  destruct (Z.eq_dec (Z.shiftr (prand_at mem (ADDRPTR (NRF_AAR_regs s) + 3)) 22) 1)
    as [Hp | Hp].
  - rewrite (resolve_resolvable mem s Hp) in *.
    destruct (resolve_loop_spec mem g prand_buf (Z.to_nat (NIRK g)) 0
                (set_matching_irk (-1) s))
      as (_ & _ & [(Hm & _) | (Hr & Hres & Hhit & Hall)]);
      unfold run, result in *; fold g address_ptr prand_buf in Hi.
    + rewrite Hm in Hi. simpl in Hi. congruence.
    + fold g address_ptr prand_buf. rewrite Hi in *.
      repeat split; auto; lia.
  - rewrite (resolve_not_resolvable mem s Hp) in Hi. simpl in Hi. congruence.
Qed.

(** C3: when the top two bits of the 24-bit prand, the three top bytes of the
    address read little endian, are not 01, a resolution returns NIRK, latches
    "none" (-1) and changes nothing else: the log gains no entry, so no AES
    call is made. *)
Theorem resolve_not_resolvable_no_crypto {ext : Externals} (mem : memory) (s : AAR_state) :
  let g := NRF_AAR_regs s in
  let address_ptr := ADDRPTR g + 3 in
  let prand := u8 (mem (address_ptr + 3)) + 2 ^ 8 * u8 (mem (address_ptr + 4))
               + 2 ^ 16 * u8 (mem (address_ptr + 5)) in
  ~ (Z.testbit prand 23 = false /\ Z.testbit prand 22 = true) ->
  0 <= NIRK g <= INT_MAX ->
  runState (nrf_aar_resolve mem) s = (NIRK g, set_matching_irk (-1) s) /\
  exists evs, log (run (nrf_aar_resolve mem) s) = log s ++ evs /\
              crypto_calls evs = 0%nat.
Proof.
  intros g address_ptr prand Hbits Hn.
  assert (Hp : Z.shiftr (prand_at mem (ADDRPTR (NRF_AAR_regs s) + 3)) 22 <> 1).
  { intros Hs. apply Hbits. apply top_bits_01.
    subst prand address_ptr g. now rewrite <- prand_at_bytes. }
  unfold run. rewrite (resolve_not_resolvable mem s Hp). fold g.
  rewrite to_int_small by exact Hn.
  split; [reflexivity |]. exists []. simpl. now rewrite app_nil_r.
Qed.

(** ** Start *)

Section Start.
Context {ext : Externals}.
Variables (now : Z) (mem : memory).

Lemma start_disabled s :
  ENABLE (NRF_AAR_regs s) <> 3 ->
  runState (nrf_aar_TASK_START now mem) s = (tt, s).
Proof.
  intros He. unfold nrf_aar_TASK_START; run_monad.
  destruct (Z.eqb_spec (ENABLE (NRF_AAR_regs s)) 3); [contradiction | reflexivity].
Qed.

Lemma start_enabled s :
  ENABLE (NRF_AAR_regs s) = 3 ->
  let n_irks := result (nrf_aar_resolve mem) (set_AAR_Running true s) in
  let s1 := run (nrf_aar_resolve mem) (set_AAR_Running true s) in
  let t := to_time (now + 1 + to_int (6 * n_irks)) in
  runState (nrf_aar_TASK_START now mem) s
  = (tt, emit (nsi_hws_find_next_event t) (set_Timer_AAR t s1)).
Proof.
  intros He. unfold nrf_aar_TASK_START, find_next_event, call, result, run; run_monad.
  rewrite He. cbn [Z.eqb Pos.eqb negb]. run_monad.
  destruct (runState (nrf_aar_resolve mem) (set_AAR_Running true s)) as [n s1].
  reflexivity.
Qed.

(** Within [start_in_range] neither the product nor the sum leaves its
    type. *)
Lemma start_count_in_range s :
  start_in_range now s ->
  let k := result (nrf_aar_resolve mem) (set_AAR_Running true s) in
  0 <= k <= NIRK (NRF_AAR_regs s) /\
  to_int (6 * k) = 6 * k /\
  to_time (now + 1 + 6 * k) = now + 1 + 6 * k.
Proof.
  intros (Hnow & Hn0 & Hn6 & Ht) k.
  assert (Hn : 0 <= NIRK (NRF_AAR_regs s) <= INT_MAX) by lia.
  pose proof (resolve_count_range mem (set_AAR_Running true s) Hn) as Hk.
  cbn [NRF_AAR_regs set_AAR_Running] in Hk. fold k in Hk.
  split; [exact Hk |]. split.
  - apply to_int_small. lia.
  - unfold to_time, TIME_NEVER in *. apply Z.mod_small. lia.
Qed.

(** An accepted Start leaves the peripheral running with a completion
    pending, whatever it was doing before. *)
Lemma start_enabled_running s :
  ENABLE (NRF_AAR_regs s) = 3 ->
  start_in_range now s ->
  AAR_Running (run (nrf_aar_TASK_START now mem) s) = true /\
  Timer_AAR (run (nrf_aar_TASK_START now mem) s) <> TIME_NEVER.
Proof.
  intros He Hrange. unfold run at 1 2. rewrite (start_enabled s He).
  cbn [snd emit set_Timer_AAR AAR_Running Timer_AAR].
  destruct (resolve_frame mem (set_AAR_Running true s)) as ((_ & _ & _ & Hr) & _).
  destruct (start_count_in_range s Hrange) as (Hk & Hint & Htime).
  split; [exact Hr |].
  rewrite Hint, Htime. destruct Hrange as (Hnow & Hn0 & Hn6 & Ht). lia.
Qed.
End Start.

(** C4: when ENABLE is 3, the product [6 * k] is an [int] and the sum is a
    time before [TIME_NEVER], a Start at time [now] leaves [now + 1 + 6 * k]
    in the timer, [k] being the count its resolution returned, and the last
    thing it does is ask the scheduler to look at that time. *)
Theorem start_completion_time {ext : Externals} (now : Z) (mem : memory) (s : AAR_state) :
  ENABLE (NRF_AAR_regs s) = 3 ->
  let k := result (nrf_aar_resolve mem) (set_AAR_Running true s) in
  INT_MIN <= 6 * k <= INT_MAX ->
  0 <= now + 1 + 6 * k < TIME_NEVER ->
  let s' := run (nrf_aar_TASK_START now mem) s in
  Timer_AAR s' = now + 1 + 6 * k /\
  exists evs, log s' = log s ++ evs ++ [nsi_hws_find_next_event (now + 1 + 6 * k)] /\
              forallb is_aes evs = true.
Proof.
  intros He k Hint Hk s'. subst s'. unfold run at 1 2.
  rewrite (start_enabled now mem s He).
  fold k. cbn [snd emit set_Timer_AAR Timer_AAR log].
  rewrite (to_int_in_range (6 * k) Hint).
  assert (Ht : to_time (now + 1 + 6 * k) = now + 1 + 6 * k)
    by (unfold to_time, TIME_NEVER in *; apply Z.mod_small; lia).
  rewrite Ht. split; [reflexivity |].
  destruct (resolve_frame mem (set_AAR_Running true s)) as (_ & evs & Hlog & Haes).
  exists evs. rewrite Hlog. cbn [log set_AAR_Running]. rewrite app_assoc. auto.
Qed.

(** C1, as the code has it: with ENABLE other than 3 a Start changes
    nothing at all.  With ENABLE at 3 the running flag is not looked at: the
    Start goes ahead from a Running peripheral exactly as from an idle one,
    resolving anew, latching what that resolution latches and putting the
    completion time it computes in the one timer. *)
Theorem start_ignored_when_disabled {ext : Externals} (now : Z) (mem : memory) (s : AAR_state) :
  if ENABLE (NRF_AAR_regs s) =? 3 then
    (forall b, runState (nrf_aar_TASK_START now mem) (set_AAR_Running b s)
               = runState (nrf_aar_TASK_START now mem) s) /\
    AAR_Running (run (nrf_aar_TASK_START now mem) s) = true /\
    Timer_AAR (run (nrf_aar_TASK_START now mem) s)
      = to_time (now + 1
                 + to_int (6 * result (nrf_aar_resolve mem) (set_AAR_Running true s))) /\
    matching_irk (run (nrf_aar_TASK_START now mem) s)
      = matching_irk (run (nrf_aar_resolve mem) (set_AAR_Running true s))
  else runState (nrf_aar_TASK_START now mem) s = (tt, s).
Proof.
  destruct (Z.eqb_spec (ENABLE (NRF_AAR_regs s)) 3) as [He | He].
  - split; [| split; [| split]].
    + intros b. rewrite (start_enabled now mem s He).
      rewrite (start_enabled now mem (set_AAR_Running b s)) by exact He.
      reflexivity.
    + unfold run at 1. rewrite (start_enabled now mem s He).
      cbn [snd emit set_Timer_AAR AAR_Running].
      now destruct (resolve_frame mem (set_AAR_Running true s)) as ((_ & _ & _ & Hr) & _).
    + unfold run at 1. now rewrite (start_enabled now mem s He).
    + unfold run at 1. now rewrite (start_enabled now mem s He).
  - now apply start_disabled.
Qed.

(** ** Completion *)

Ltac crunch_state s :=
  destruct s as [[ts tp ee er en iset iclr st ena nirk irkp addrp] t m r k l].

Ltac unfold_ops :=
  unfold run, result, nrf_aar_timer_triggered, nrf_aar_TASK_STOP,
    nrf_aar_regw_sideeffects_INTENSET, nrf_aar_regw_sideeffects_INTENCLR,
    nrf_aar_init;
  unfold_signals.

Lemma to_uint32_small z : 0 <= z <= INT_MAX -> to_uint32 z = z.
Proof. unfold to_uint32, INT_MAX. intros Hz. apply Z.mod_small. lia. Qed.

Lemma timer_triggered_log {ext : Externals} (s : AAR_state) :
  let irk := matching_irk s in
  log (run nrf_aar_timer_triggered s)
  = log s ++
    nsi_hws_find_next_event TIME_NEVER ::
    (if irk =? -1 then
       signalled rEVENTS_NOTRESOLVED AAR_EVENTS_NOTRESOLVED
                 (AAR_INTEN s) AAR_INTENCLR_NOTRESOLVED_Msk
     else
       reg_write rSTATUS (to_uint32 irk) ::
       signalled rEVENTS_RESOLVED AAR_EVENTS_RESOLVED
                 (AAR_INTEN s) AAR_INTENCLR_RESOLVED_Msk) ++
    signalled rEVENTS_END AAR_EVENTS_END (AAR_INTEN s) AAR_INTENSET_END_Msk.
Proof.
  crunch_state s. unfold_ops. simpl.
  destruct (k =? -1); simpl;
    [ destruct (nonzero (Z.land m AAR_INTENCLR_NOTRESOLVED_Msk))
    | destruct (nonzero (Z.land m AAR_INTENCLR_RESOLVED_Msk)) ];
    simpl;
    destruct (nonzero (Z.land m AAR_INTENSET_END_Msk));
    simpl; rewrite <- ?app_assoc; reflexivity.
Qed.

(** C5: a completion tells the scheduler the timer is off, then signals
    NotResolved when -1 is latched and otherwise stores the latched index to
    STATUS and signals Resolved, then signals End.  Each signal sets its
    flag, raises its PPI event, and raises the interrupt when masked in.  So
    exactly one of Resolved and NotResolved is raised, End is raised once,
    the flag of the first is stored before the End flag is, and on a match the
    store to STATUS comes before the Resolved flag. *)
Theorem completion_event_order {ext : Externals} (s : AAR_state) :
  let s' := run nrf_aar_timer_triggered s in
  let irk := matching_irk s in
  let first :=
    if irk =? -1 then
      signalled rEVENTS_NOTRESOLVED AAR_EVENTS_NOTRESOLVED
                (AAR_INTEN s) AAR_INTENCLR_NOTRESOLVED_Msk
    else
      reg_write rSTATUS (to_uint32 irk) ::
      signalled rEVENTS_RESOLVED AAR_EVENTS_RESOLVED
                (AAR_INTEN s) AAR_INTENCLR_RESOLVED_Msk in
  let evs :=
    first ++ signalled rEVENTS_END AAR_EVENTS_END (AAR_INTEN s) AAR_INTENSET_END_Msk in
  log s' = log s ++ nsi_hws_find_next_event TIME_NEVER :: evs /\
  fired AAR_EVENTS_END evs = 1%nat /\
  fired AAR_EVENTS_RESOLVED evs = (if irk =? -1 then 0%nat else 1%nat) /\
  fired AAR_EVENTS_NOTRESOLVED evs = (if irk =? -1 then 1%nat else 0%nat) /\
  EVENTS_END (NRF_AAR_regs s') = 1 /\
  (if irk =? -1 then
     before (reg_write rEVENTS_NOTRESOLVED 1) (reg_write rEVENTS_END 1) evs /\
     before (nrf_ppi_event AAR_EVENTS_NOTRESOLVED) (nrf_ppi_event AAR_EVENTS_END) evs /\
     EVENTS_NOTRESOLVED (NRF_AAR_regs s') = 1
   else
     before (reg_write rSTATUS (to_uint32 irk)) (reg_write rEVENTS_RESOLVED 1) evs /\
     before (reg_write rEVENTS_RESOLVED 1) (reg_write rEVENTS_END 1) evs /\
     before (nrf_ppi_event AAR_EVENTS_RESOLVED) (nrf_ppi_event AAR_EVENTS_END) evs /\
     EVENTS_RESOLVED (NRF_AAR_regs s') = 1 /\
     STATUS (NRF_AAR_regs s') = to_uint32 irk /\
     (0 <= irk <= INT_MAX -> STATUS (NRF_AAR_regs s') = irk)).
Proof.
  crunch_state s. unfold_ops. simpl.
  destruct (k =? -1); simpl;
    [ destruct (nonzero (Z.land m AAR_INTENCLR_NOTRESOLVED_Msk))
    | destruct (nonzero (Z.land m AAR_INTENCLR_RESOLVED_Msk)) ];
    simpl;
    destruct (nonzero (Z.land m AAR_INTENSET_END_Msk));
    simpl; rewrite <- ?app_assoc; simpl;
    (split; [reflexivity |]);
    (split; [reflexivity |]); (split; [reflexivity |]); (split; [reflexivity |]);
    (split; [reflexivity |]);
    repeat match goal with
    | |- _ /\ _ => split
    | |- before (reg_write rSTATUS ?v) _ _ =>
        exists []; eexists; split; [reflexivity | split; [intros [] | cbn [In]; tauto]]
    | |- before ?a _ (?a :: _) =>
        exists []; eexists; split; [reflexivity | split; [intros [] | cbn [In]; tauto]]
    | |- before ?a _ (?x :: ?a :: _) =>
        exists [x]; eexists; split;
        [reflexivity | split; [intros [E | []]; discriminate E | cbn [In]; tauto]]
    | |- before ?a _ (?x :: ?y :: ?a :: _) =>
        exists [x; y]; eexists; split;
        [reflexivity
        | split; [intros [E | [E | []]]; discriminate E | cbn [In]; tauto]]
    | |- _ = _ => reflexivity
    | |- _ -> _ => intros Hr; now apply to_uint32_small
    end.
Qed.

(** ** STATUS *)

(** C7: a completion with -1 latched leaves STATUS as it was (and one with an
    index latched stores that index); a Stop, whether or not the peripheral
    is Running, a Start and the two interrupt-mask handlers leave STATUS as
    it was.  Neither a Stop nor a completion without a match logs a store to
    STATUS. *)
Theorem status_written_only_on_match {ext : Externals} (now : Z) (mem : memory)
    (s : AAR_state) :
  let status (x : AAR_state) := STATUS (NRF_AAR_regs x) in
  status (run nrf_aar_timer_triggered s)
    = (if matching_irk s =? -1 then status s else to_uint32 (matching_irk s)) /\
  status (run nrf_aar_TASK_STOP s) = status s /\
  status (run (nrf_aar_TASK_START now mem) s) = status s /\
  status (run nrf_aar_regw_sideeffects_INTENSET s) = status s /\
  status (run nrf_aar_regw_sideeffects_INTENCLR s) = status s /\
  (exists evs, log (run nrf_aar_timer_triggered s) = log s ++ evs /\
     stores_to rSTATUS evs = if matching_irk s =? -1 then 0%nat else 1%nat) /\
  (exists evs, log (run nrf_aar_TASK_STOP s) = log s ++ evs /\
     stores_to rSTATUS evs = 0%nat).
Proof.
  intros status; subst status; cbv beta.
  split; [| split; [| split; [| split; [| split; [| split]]]]].
  - crunch_state s. unfold_ops. simpl.
    destruct (k =? -1); simpl; destruct (nonzero _); simpl;
      destruct (nonzero _); reflexivity.
  - crunch_state s. unfold_ops. simpl.
    destruct r; simpl; [destruct (nonzero _) |]; reflexivity.
  - destruct (Z.eq_dec (ENABLE (NRF_AAR_regs s)) 3) as [He | He].
    + unfold run at 1. rewrite (start_enabled now mem s He).
      cbn [snd emit set_Timer_AAR NRF_AAR_regs].
      destruct (resolve_frame mem (set_AAR_Running true s)) as ((Hg & _) & _).
      now rewrite Hg.
    + unfold run. now rewrite (start_disabled now mem s He).
  - crunch_state s. unfold_ops. simpl. destruct (nonzero iset); reflexivity.
  - crunch_state s. unfold_ops. simpl. destruct (nonzero iclr); reflexivity.
  - pose proof (timer_triggered_log s) as Hlog. cbv zeta in Hlog.
    eexists; split; [exact Hlog |].
    destruct (matching_irk s =? -1); unfold signalled, irq_if;
      repeat destruct (nonzero _); reflexivity.
  - crunch_state s. unfold_ops. simpl.
    destruct r; simpl; [| exists []; now rewrite app_nil_r].
    destruct (nonzero _); simpl; eexists; rewrite <- !app_assoc; split; reflexivity.
Qed.

(** ** The invariant *)

Section Invariant.
Context {ext : Externals}.

Lemma pending_iff_running_idle s :
  Timer_AAR s = TIME_NEVER -> AAR_Running s = false -> pending_iff_running s.
Proof.
  unfold pending_iff_running. intros -> ->. split; [congruence | discriminate].
Qed.

Lemma pending_iff_running_same s s' :
  Timer_AAR s' = Timer_AAR s -> AAR_Running s' = AAR_Running s ->
  pending_iff_running s -> pending_iff_running s'.
Proof. unfold pending_iff_running. now intros -> ->. Qed.

Lemma init_idle s : pending_iff_running (run nrf_aar_init s).
Proof. apply pending_iff_running_idle; reflexivity. Qed.

Lemma timer_triggered_idle s : pending_iff_running (run nrf_aar_timer_triggered s).
Proof.
  apply pending_iff_running_idle; crunch_state s; unfold_ops; simpl;
    destruct (negb _); simpl; destruct (nonzero _); simpl;
    destruct (nonzero _); reflexivity.
Qed.

Lemma stop_keeps s :
  pending_iff_running s -> pending_iff_running (run nrf_aar_TASK_STOP s).
Proof.
  intros Hinv. destruct (AAR_Running s) eqn:Hr.
  - apply pending_iff_running_idle; crunch_state s; simpl in Hr; subst r;
      unfold_ops; simpl; destruct (nonzero _); reflexivity.
  - pose proof (stop_noop s Hr) as Hs. unfold run. now rewrite Hs.
Qed.

Lemma start_keeps now mem s :
  start_in_range now s ->
  pending_iff_running s ->
  pending_iff_running (run (nrf_aar_TASK_START now mem) s).
Proof.
  intros Hrange Hinv.
  destruct (Z.eq_dec (ENABLE (NRF_AAR_regs s)) 3) as [He | He].
  - destruct (start_enabled_running now mem s He Hrange) as [Hr Htm].
    unfold pending_iff_running. tauto.
  - unfold run. now rewrite (start_disabled now mem s He).
Qed.

Lemma step_keeps s s' :
  step s s' -> pending_iff_running s -> pending_iff_running s'.
Proof.
  intros Hstep Hinv. destruct Hstep.
  - revert Hinv. apply pending_iff_running_same; reflexivity.
  - now apply start_keeps.
  - now apply stop_keeps.
  - apply timer_triggered_idle.
  - revert Hinv. apply pending_iff_running_same;
      crunch_state s; unfold_ops; simpl; destruct (nonzero iset); reflexivity.
  - revert Hinv. apply pending_iff_running_same;
      crunch_state s; unfold_ops; simpl; destruct (nonzero iclr); reflexivity.
  - unfold run, nrf_aar_regw_sideeffects_TASKS_START, when, store; run_monad.
    destruct (nonzero (TASKS_START (NRF_AAR_regs s))); [| exact Hinv].
    run_monad.
    match goal with
    | |- pending_iff_running (snd (runState _ ?s1)) =>
        change (pending_iff_running (run (nrf_aar_TASK_START now mem) s1));
        apply start_keeps; crunch_state s; assumption
    end.
  - unfold run, nrf_aar_regw_sideeffects_TASKS_STOP, when, store; run_monad.
    destruct (nonzero (TASKS_STOP (NRF_AAR_regs s))); [| exact Hinv].
    run_monad.
    match goal with
    | |- pending_iff_running (snd (runState _ ?s1)) =>
        change (pending_iff_running (run nrf_aar_TASK_STOP s1));
        apply stop_keeps; crunch_state s; assumption
    end.
Qed.
End Invariant.

(** C9: in every state reached from a reset by firmware stores, Starts,
    Stops, completions and interrupt-mask updates, the timer differs from
    [TIME_NEVER] exactly when the running flag is set.  The Starts are those
    of [start_in_range]: six times NIRK within [int], and a time from which
    the longest resolution ends before [TIME_NEVER]. *)
Theorem pending_completion_iff_running {ext : Externals} (s : AAR_state) :
  reachable s ->
  (Timer_AAR s <> TIME_NEVER <-> AAR_Running s = true).
Proof.
  induction 1 as [s | s s' _ IH Hstep].
  - apply init_idle.
  - exact (step_keeps s s' Hstep IH).
Qed.

(** * The sample data through the model *)

(** The second of the three sample keys matches: index 1 latched, two keys
    examined, completion 1 + 6 * 2 after the Start at time 0. *)
Example sample_start :
  matching_irk running_state = 1 /\ Timer_AAR running_state = 13 /\
  AAR_Running running_state = true /\ crypto_calls (log running_state) = 2%nat.
Proof. vm_compute. repeat split. Qed.

(** The completion of that Start: STATUS = 1, Resolved then End. *)
Example sample_completion :
  let s' := run (nrf_aar_timer_triggered (ext := sample_externals)) running_state in
  STATUS (NRF_AAR_regs s') = 1 /\ AAR_Running s' = false /\
  Timer_AAR s' = TIME_NEVER /\
  skipn 3 (log s')
  = [nsi_hws_find_next_event 13; nsi_hws_find_next_event TIME_NEVER;
     reg_write rSTATUS 1;
     reg_write rEVENTS_RESOLVED 1; nrf_ppi_event AAR_EVENTS_RESOLVED;
     reg_write rEVENTS_END 1; nrf_ppi_event AAR_EVENTS_END].
Proof. vm_compute. repeat split. Qed.

(** The [int] product of a Start: on an address that is not resolvable the
    count is NIRK = 400000000, [6 * n_irks] comes out as 2400000000 - 2^32,
    and the timer, from time 0, as 2^64 + 1 + 2400000000 - 2^32. *)
Example start_int_product_wraps :
  result (nrf_aar_resolve (ext := sample_externals) zero_mem)
         (set_AAR_Running true long_list_state) = 400000000 /\
  Timer_AAR (run (nrf_aar_TASK_START (ext := sample_externals) 0 zero_mem)
                 long_list_state) = 18446744071814584321.
Proof. vm_compute. split; reflexivity. Qed.

(** [running_state] is reached by a reset, the firmware's register stores
    and a Start. *)
Lemma running_state_reachable : reachable (ext := sample_externals) running_state.
Proof.
  apply reach_step with idle_state.
  - apply reach_step with (run nrf_aar_init boot_state).
    + apply reach_init.
    + apply step_firmware.
  - apply step_TASK_START. vm_compute. repeat split; discriminate.
Qed.

(** C1, refuted as stated: [running_state] is reachable and is Running, with
    completion time 13 and index 1 latched; a Start at time 5, on a RAM
    whose address is not resolvable, moves the completion time to
    5 + 1 + 6 * 3 and latches -1. *)
Lemma start_while_running_not_ignored :
  let start := nrf_aar_TASK_START (ext := sample_externals) 5 zero_mem in
  reachable (ext := sample_externals) running_state /\
  (ENABLE (NRF_AAR_regs running_state) <> 3 \/ AAR_Running running_state = true) /\
  runState start running_state <> (tt, running_state) /\
  Timer_AAR running_state = 13 /\ Timer_AAR (run start running_state) = 24 /\
  matching_irk running_state = 1 /\ matching_irk (run start running_state) = -1.
Proof.
  cbv zeta. split; [exact running_state_reachable |].
  split; [right; reflexivity |]. split.
  - intros E. apply (f_equal (fun p => Timer_AAR (snd p))) in E.
    vm_compute in E. discriminate E.
  - vm_compute. repeat split.
Qed.

(** C2 on the sample: the resolution of [sample_mem] latches index 1. *)
Lemma resolve_first_match_witness :
  matching_irk (run (nrf_aar_resolve (ext := sample_externals) sample_mem) idle_state) = 1 /\
  1 <> -1 /\
  (let g := NRF_AAR_regs idle_state in
   let address_ptr := ADDRPTR g + 3 in
   let prand_buf := prand_buf_of (prand_at sample_mem address_ptr) in
   result (nrf_aar_resolve (ext := sample_externals) sample_mem) idle_state = 1 + 1 /\
   0 <= 1 < NIRK g /\
   irk_hash_check (ext := sample_externals) sample_mem g prand_buf 1
     = hash_at sample_mem address_ptr /\
   forall j, 0 <= j < 1 ->
     irk_hash_check (ext := sample_externals) sample_mem g prand_buf j
       <> hash_at sample_mem address_ptr).
Proof.
  split; [vm_compute; reflexivity |]. split; [discriminate |].
  apply (resolve_first_match (ext := sample_externals) sample_mem idle_state 1);
    [vm_compute; reflexivity | discriminate].
Defined.

(** C3 on the sample: the address of [zero_mem] has prand 0. *)
Lemma resolve_not_resolvable_no_crypto_witness :
  (let g := NRF_AAR_regs idle_state in
   let address_ptr := ADDRPTR g + 3 in
   let prand := u8 (zero_mem (address_ptr + 3)) + 2 ^ 8 * u8 (zero_mem (address_ptr + 4))
                + 2 ^ 16 * u8 (zero_mem (address_ptr + 5)) in
   ~ (Z.testbit prand 23 = false /\ Z.testbit prand 22 = true)) /\
  0 <= NIRK (NRF_AAR_regs idle_state) <= INT_MAX /\
  (runState (nrf_aar_resolve (ext := sample_externals) zero_mem) idle_state
     = (NIRK (NRF_AAR_regs idle_state), set_matching_irk (-1) idle_state) /\
   exists evs,
     log (run (nrf_aar_resolve (ext := sample_externals) zero_mem) idle_state)
       = log idle_state ++ evs /\
     crypto_calls evs = 0%nat).
Proof.
  assert (Hbits : ~ (Z.testbit 0 23 = false /\ Z.testbit 0 22 = true))
    by (intros [_ E]; discriminate E).
  assert (Hn : 0 <= 3 <= INT_MAX) by (vm_compute; split; discriminate).
  split; [exact Hbits |]. split; [exact Hn |].
  apply (resolve_not_resolvable_no_crypto (ext := sample_externals) zero_mem idle_state);
    [exact Hbits | exact Hn].
Defined.

(** C4 on the sample: a Start at time 0 on [sample_mem]. *)
Lemma start_completion_time_witness :
  ENABLE (NRF_AAR_regs idle_state) = 3 /\
  (let k := result (nrf_aar_resolve (ext := sample_externals) sample_mem)
                   (set_AAR_Running true idle_state) in
   INT_MIN <= 6 * k <= INT_MAX) /\
  (let k := result (nrf_aar_resolve (ext := sample_externals) sample_mem)
                   (set_AAR_Running true idle_state) in
   0 <= 0 + 1 + 6 * k < TIME_NEVER) /\
  (let k := result (nrf_aar_resolve (ext := sample_externals) sample_mem)
                   (set_AAR_Running true idle_state) in
   let s' := run (nrf_aar_TASK_START (ext := sample_externals) 0 sample_mem) idle_state in
   Timer_AAR s' = 0 + 1 + 6 * k /\
   exists evs,
     log s' = log idle_state ++ evs ++ [nsi_hws_find_next_event (0 + 1 + 6 * k)] /\
     forallb is_aes evs = true).
Proof.
  assert (Hint : INT_MIN <= 6 * result (nrf_aar_resolve (ext := sample_externals) sample_mem)
                                  (set_AAR_Running true idle_state) <= INT_MAX)
    by (vm_compute; split; discriminate).
  assert (Hk : 0 <= 0 + 1 + 6 * result (nrf_aar_resolve (ext := sample_externals) sample_mem)
                                   (set_AAR_Running true idle_state) < TIME_NEVER)
    by (vm_compute; split; [discriminate | reflexivity]).
  split; [reflexivity |]. split; [exact Hint |]. split; [exact Hk |].
  apply (start_completion_time (ext := sample_externals) 0 sample_mem idle_state);
    [reflexivity | exact Hint | exact Hk].
Defined.

(** C8 on the sample: the bits END and NOTRESOLVED, written twice. *)
Lemma inten_writes_idempotent_witness :
  5 <> 0 /\
  (let set1 := run (regw rINTENSET 5 nrf_aar_regw_sideeffects_INTENSET) idle_state in
   let set2 := run (regw rINTENSET 5 nrf_aar_regw_sideeffects_INTENSET) set1 in
   let clr1 := run (regw rINTENCLR 5 nrf_aar_regw_sideeffects_INTENCLR) idle_state in
   let clr2 := run (regw rINTENCLR 5 nrf_aar_regw_sideeffects_INTENCLR) clr1 in
   (AAR_INTEN set1 = Z.lor (AAR_INTEN idle_state) 5 /\
    AAR_INTEN set2 = AAR_INTEN set1 /\
    INTENSET (NRF_AAR_regs set1) = AAR_INTEN set1) /\
   (AAR_INTEN clr1 = Z.land (AAR_INTEN idle_state) (not32 5) /\
    AAR_INTEN clr2 = AAR_INTEN clr1 /\
    INTENCLR (NRF_AAR_regs clr1) = 0 /\
    INTENSET (NRF_AAR_regs clr1) = AAR_INTEN clr1)).
Proof.
  split; [discriminate |].
  apply (inten_writes_idempotent 5 idle_state). discriminate.
Defined.

(** C9 on the sample: [running_state] has the timer at 13 and is running. *)
Lemma pending_completion_iff_running_witness :
  reachable (ext := sample_externals) running_state /\
  (Timer_AAR running_state <> TIME_NEVER <-> AAR_Running running_state = true).
Proof.
  split; [exact running_state_reachable |].
  apply (pending_completion_iff_running (ext := sample_externals) running_state
           running_state_reachable).
Defined.

(** * Further properties of the resolution *)

Section ResolveMore.
Context {ext : Externals}.
Variable mem : memory.

Lemma aes_calls_app g pb i n1 n2 :
  aes_calls mem g pb i (n1 + n2)
  = aes_calls mem g pb i n1 ++ aes_calls mem g pb (i + Z.of_nat n1) n2.
Proof.
  revert i. induction n1 as [| n1 IH]; intros i.
  - simpl. now rewrite Z.add_0_r.
  - cbn [Nat.add aes_calls app]. rewrite IH. do 3 f_equal. lia.
Qed.

Lemma aes_calls_all g pb i n : forallb is_aes (aes_calls mem g pb i n) = true.
Proof. revert i. induction n as [| n IH]; intros i; simpl; auto. Qed.

Lemma aes_calls_length g pb i n : length (aes_calls mem g pb i n) = n.
Proof. revert i. induction n as [| n IH]; intros i; simpl; auto. Qed.

(** The log of the loop: one call per key examined, in index order. *)
Lemma resolve_loop_log g pb (todo : nat) : forall (i : Z) (s : AAR_state),
  log (run (resolve_loop mem g pb todo i) s)
  = log s ++ aes_calls mem g pb i
               (Z.to_nat (result (resolve_loop mem g pb todo i) s - i)).
Proof.
  induction todo as [| todo' IH]; intros i s.
  - unfold result, run; simpl. rewrite Z.sub_diag. simpl. now rewrite app_nil_r.
  - pose proof (resolve_loop_spec mem g pb todo' (i + 1)
                  (emit (aes_128 (irk_at mem g i) pb) s)) as Hspec.
    specialize (IH (i + 1) (emit (aes_128 (irk_at mem g i) pb) s)).
    unfold result, run in *. cbn [resolve_loop]. unfold call; run_monad.
    destruct (Z.eqb_spec (hash_at mem (ADDRPTR g + 3))
                (hash_check_of (BLECrypt_if_aes_128 (irk_at mem g i) pb))) as [Heq | Hne].
    + run_monad. cbn [log set_matching_irk emit].
      replace (i + 1 - i) with 1 by lia. reflexivity.
    + rewrite IH. cbn [log emit]. rewrite <- app_assoc. f_equal.
      cbv zeta in Hspec.
      set (n := fst (runState (resolve_loop mem g pb todo' (i + 1))
                       (emit (aes_128 (irk_at mem g i) pb) s))) in *.
      assert (Hn : i + 1 <= n) by (destruct Hspec as (_ & _ & [H1 | H1]); lia).
      replace (Z.to_nat (n - i)) with (S (Z.to_nat (n - (i + 1)))) by lia.
      reflexivity.
Qed.

(** What a resolution of a resolvable address comes to. *)
Lemma resolve_resolvable_spec s :
  let g := NRF_AAR_regs s in
  let pb := prand_buf_of (prand_at mem (ADDRPTR g + 3)) in
  let hash := hash_at mem (ADDRPTR g + 3) in
  let n := result (nrf_aar_resolve mem) s in
  let s' := run (nrf_aar_resolve mem) s in
  resolvable mem g ->
  unchanged_hw s s' /\
  log s' = log s ++ aes_calls mem g pb 0 (Z.to_nat n) /\
  ((matching_irk s' = -1 /\ n = Z.of_nat (Z.to_nat (NIRK g)) /\
    forall j, 0 <= j < NIRK g -> irk_hash_check mem g pb j <> hash)
   \/
   (0 <= matching_irk s' < NIRK g /\ n = matching_irk s' + 1 /\
    irk_hash_check mem g pb (matching_irk s') = hash /\
    forall j, 0 <= j < matching_irk s' -> irk_hash_check mem g pb j <> hash)).
Proof.
  intros g pb hash n s' Hp. subst n s'. unfold run, result.
  rewrite (resolve_resolvable mem s Hp). fold g pb.
  pose proof (resolve_loop_spec mem g pb (Z.to_nat (NIRK g)) 0
                (set_matching_irk (-1) s)) as (Hhw & _ & Hcase).
  pose proof (resolve_loop_log g pb (Z.to_nat (NIRK g)) 0 (set_matching_irk (-1) s))
    as Hlog.
  unfold run, result in *. rewrite Z.sub_0_r in Hlog.
  split; [exact Hhw |]. split; [exact Hlog |].
  destruct Hcase as [(Hm & Hn & Hall) | (Hr & Hn & Hhit & Hall)].
  - left. repeat split; [exact Hm | lia |]. intros j Hj. apply Hall. lia.
  - right. fold hash. repeat split; auto; lia.
Qed.
End ResolveMore.

(** X1: on a resolvable address, a key of the list whose hash check equals
    the hash is never missed: an index is latched, it is the first such key,
    so at most [j], and the count is that index plus one. *)
Theorem resolve_finds_first_match {ext : Externals} (mem : memory)
    (s : AAR_state) (j : Z) :
  let g := NRF_AAR_regs s in
  let address_ptr := ADDRPTR g + 3 in
  let prand_buf := prand_buf_of (prand_at mem address_ptr) in
  resolvable mem g ->
  0 <= j < NIRK g ->
  irk_hash_check mem g prand_buf j = hash_at mem address_ptr ->
  let i := matching_irk (run (nrf_aar_resolve mem) s) in
  0 <= i <= j /\
  irk_hash_check mem g prand_buf i = hash_at mem address_ptr /\
  result (nrf_aar_resolve mem) s = i + 1.
Proof.
  intros g address_ptr prand_buf Hp Hj Hhit i. subst i.
  destruct (resolve_resolvable_spec mem s Hp)
    as (_ & _ & [(_ & _ & Hall) | (Hr & Hn & Hm & Hall)]).
  - exfalso. exact (Hall j Hj Hhit).
  - fold g address_ptr prand_buf in Hr, Hn, Hm, Hall |- *.
    repeat split; auto; try lia.
    destruct (Z.le_gt_cases (matching_irk (run (nrf_aar_resolve mem) s)) j) as [Hle | Hgt];
      [exact Hle |].
    exfalso. apply (Hall j); [lia | exact Hhit].
Qed.

(** X2: on a resolvable address with no key of the list matching, and NIRK a
    count an [int] can hold, the whole list is gone through: -1 is latched,
    the count is NIRK, and the cipher has been called NIRK times. *)
Theorem resolve_exhausts_list {ext : Externals} (mem : memory) (s : AAR_state) :
  let g := NRF_AAR_regs s in
  let address_ptr := ADDRPTR g + 3 in
  let prand_buf := prand_buf_of (prand_at mem address_ptr) in
  resolvable mem g ->
  0 <= NIRK g <= INT_MAX ->
  (forall j, 0 <= j < NIRK g ->
     irk_hash_check mem g prand_buf j <> hash_at mem address_ptr) ->
  let s' := run (nrf_aar_resolve mem) s in
  matching_irk s' = -1 /\
  result (nrf_aar_resolve mem) s = NIRK g /\
  exists evs, log s' = log s ++ evs /\ Z.of_nat (crypto_calls evs) = NIRK g.
Proof.
  intros g address_ptr prand_buf Hp Hn Hall s'. subst s'.
  destruct (resolve_resolvable_spec mem s Hp)
    as (_ & Hlog & [(Hm & Hres & _) | (Hr & _ & Hhit & _)]).
  - fold g in Hres. split; [exact Hm |]. split; [lia |].
    eexists. split; [exact Hlog |].
    unfold crypto_calls. rewrite forallb_filter_id by apply aes_calls_all.
    rewrite aes_calls_length. fold g. lia.
  - exfalso. fold g address_ptr prand_buf in Hr, Hhit. exact (Hall _ Hr Hhit).
Qed.

(** X3: on a resolvable address, with NIRK a count an [int] can hold, what a
    resolution logs is its AES calls and nothing else (the trace prints are
    not logged): one call per key examined, on the keys at IRKPTR,
    IRKPTR + 16, ... in that order, each with the same block built from
    prand. *)
Theorem resolve_call_sequence {ext : Externals} (mem : memory) (s : AAR_state) :
  let g := NRF_AAR_regs s in
  let prand_buf := prand_buf_of (prand_at mem (ADDRPTR g + 3)) in
  resolvable mem g ->
  NIRK g <= INT_MAX ->
  log (run (nrf_aar_resolve mem) s)
  = log s ++ aes_calls mem g prand_buf 0 (Z.to_nat (result (nrf_aar_resolve mem) s)).
Proof.
  intros g prand_buf Hp _. now destruct (resolve_resolvable_spec mem s Hp) as (_ & Hlog & _).
Qed.

(** X4: with NIRK = 0 a resolution returns 0 with -1 latched and no AES
    call, whatever the address; an enabled Start then sets the completion
    one time unit ahead. *)
Theorem resolve_empty_key_list {ext : Externals} (now : Z) (mem : memory)
    (s : AAR_state) :
  NIRK (NRF_AAR_regs s) = 0 ->
  runState (nrf_aar_resolve mem) s = (0, set_matching_irk (-1) s) /\
  (ENABLE (NRF_AAR_regs s) = 3 -> 0 <= now < TIME_NEVER - 1 ->
   Timer_AAR (run (nrf_aar_TASK_START now mem) s) = now + 1).
Proof.
  intros Hn.
  assert (Hres : forall s0, NIRK (NRF_AAR_regs s0) = 0 ->
            runState (nrf_aar_resolve mem) s0 = (0, set_matching_irk (-1) s0)).
  { intros s0 H0.
    destruct (Z.eq_dec (Z.shiftr (prand_at mem (ADDRPTR (NRF_AAR_regs s0) + 3)) 22) 1)
      as [Hp | Hp].
    - rewrite (resolve_resolvable mem s0 Hp). rewrite H0. reflexivity.
    - rewrite (resolve_not_resolvable mem s0 Hp). rewrite H0. reflexivity. }
  split; [now apply Hres |].
  intros He Hnow. unfold run. rewrite (start_enabled now mem s He).
  unfold result. rewrite (Hres (set_AAR_Running true s) Hn).
  cbn [fst snd emit set_Timer_AAR Timer_AAR].
  change (to_int (6 * 0)) with 0.
  unfold to_time, TIME_NEVER in *. rewrite Z.mod_small; lia.
Qed.

(** ** Byte order *)

Lemma u8_byte_of_Z z : 0 <= z < 256 -> u8 (byte_of_Z z) = z.
Proof.
  intros Hz. unfold u8, byte_of_Z.
  destruct (Byte.of_N (Z.to_N z)) as [b |] eqn:Hb.
  - apply Byte.to_of_N in Hb. rewrite Hb. lia.
  - apply Byte.of_N_None_iff in Hb. lia.
Qed.

Lemma land_255_range z : 0 <= Z.land z 0xFF < 256.
Proof.
  change 0xFF with (Z.ones 8). rewrite Z.land_ones by lia.
  apply Z.mod_pos_bound. lia.
Qed.

(** X5: the block handed to the cipher is 16 bytes, all zero but the last
    three, and reading bytes 13..15 of it back the way the hash check is read
    from the cipher's result gives the low 24 bits of prand again: the two
    byte order reversals undo each other. *)
Theorem prand_buf_round_trip (prand : Z) :
  length (prand_buf_of prand) = 16%nat /\
  firstn 13 (prand_buf_of prand) = repeat x00 13 /\
  hash_check_of (prand_buf_of prand) = Z.land prand 0xFFFFFF.
Proof.
  split; [reflexivity |]. split; [reflexivity |].
  unfold hash_check_of, prand_buf_of. cbn [repeat app nth].
  rewrite !u8_byte_of_Z by apply land_255_range.
  apply Z.bits_inj'. intros n Hn.
  rewrite !Z.lor_spec, !Z.shiftl_spec, !Z.land_spec by lia.
  change 0xFF with (Z.ones 8). change 0xFFFFFF with (Z.ones 24).
  rewrite !Z.testbit_ones by lia.
  destruct (Z.ltb_spec n 8) as [H8 | H8].
  - rewrite (Z.testbit_neg_r _ (n - 8)), (Z.testbit_neg_r _ (n - 16)) by lia.
    replace (0 <=? n) with true by (symmetry; apply Z.leb_le; lia).
    replace (n <? 24) with true by (symmetry; apply Z.ltb_lt; lia).
    replace (0 <=? n - 8) with false by (symmetry; apply Z.leb_gt; lia).
    replace (0 <=? n - 16) with false by (symmetry; apply Z.leb_gt; lia).
    destruct (Z.testbit prand n); reflexivity.
  - destruct (Z.ltb_spec n 16) as [H16 | H16].
    + rewrite (Z.testbit_neg_r _ (n - 16)) by lia.
      rewrite Z.shiftr_spec by lia. replace (n - 8 + 8) with n by lia.
      replace (0 <=? n) with true by (symmetry; apply Z.leb_le; lia).
      replace (n <? 24) with true by (symmetry; apply Z.ltb_lt; lia).
      replace (0 <=? n - 8) with true by (symmetry; apply Z.leb_le; lia).
      replace (n - 8 <? 8) with true by (symmetry; apply Z.ltb_lt; lia).
      replace (0 <=? n - 16) with false by (symmetry; apply Z.leb_gt; lia).
      destruct (Z.testbit prand n); reflexivity.
    + rewrite !Z.shiftr_spec by lia.
      replace (n - 8 + 8) with n by lia. replace (n - 16 + 16) with n by lia.
      replace (0 <=? n) with true by (symmetry; apply Z.leb_le; lia).
      replace (0 <=? n - 8) with true by (symmetry; apply Z.leb_le; lia).
      replace (0 <=? n - 16) with true by (symmetry; apply Z.leb_le; lia).
      replace (n - 8 <? 8) with false by (symmetry; apply Z.ltb_ge; lia).
      destruct (Z.ltb_spec n 24) as [H24 | H24].
      * replace (n - 16 <? 8) with true by (symmetry; apply Z.ltb_lt; lia).
        destruct (Z.testbit prand n); reflexivity.
      * replace (n - 16 <? 8) with false by (symmetry; apply Z.ltb_ge; lia).
        destruct (Z.testbit prand n); reflexivity.
Qed.

(** ** What the resolution reads *)

Lemma hash_at_bytes mem a :
  hash_at mem a = u8 (mem a) + 2 ^ 8 * u8 (mem (a + 1)) + 2 ^ 16 * u8 (mem (a + 2)).
Proof.
  unfold hash_at, load32.
  change 0xFFFFFF with (Z.ones 24). rewrite Z.land_ones by lia.
  pose proof (u8_range (mem a)). pose proof (u8_range (mem (a + 1))).
  pose proof (u8_range (mem (a + 2))).
  symmetry. apply Z.mod_unique with (q := u8 (mem (a + 3))); lia.
Qed.

Lemma load_bytes_ext mem mem' n : forall p,
  (forall q, p <= q < p + Z.of_nat n -> mem q = mem' q) ->
  load_bytes mem p n = load_bytes mem' p n.
Proof.
  induction n as [| n IH]; intros p Hagree; [reflexivity |].
  cbn [load_bytes]. rewrite (Hagree p) by lia. f_equal.
  apply IH. intros q Hq. apply Hagree. lia.
Qed.

Section ReadSet.
Context {ext : Externals}.
Variables (mem mem' : memory) (g : NRF_AAR_Type) (pb : list byte).
Hypothesis Hhash : hash_at mem (ADDRPTR g + 3) = hash_at mem' (ADDRPTR g + 3).
Hypothesis Hkeys :
  forall p, IRKPTR g <= p < IRKPTR g + 16 * NIRK g -> mem p = mem' p.

Lemma irk_at_ext i : 0 <= i < NIRK g -> irk_at mem g i = irk_at mem' g i.
Proof.
  intros Hi. unfold irk_at. apply load_bytes_ext. intros q Hq.
  apply Hkeys. change (Z.of_nat 16) with 16 in Hq. lia.
Qed.

Lemma resolve_loop_ext (todo : nat) : forall i s,
  0 <= i -> i + Z.of_nat todo <= NIRK g ->
  runState (resolve_loop mem g pb todo i) s
  = runState (resolve_loop mem' g pb todo i) s.
Proof.
  induction todo as [| todo' IH]; intros i s Hi Hle; [reflexivity |].
  cbn [resolve_loop]. unfold call; run_monad.
  rewrite <- Hhash, <- (irk_at_ext i) by lia.
  destruct (hash_at mem (ADDRPTR g + 3) =? _); [reflexivity |].
  apply IH; lia.
Qed.
End ReadSet.

(** X6: a resolution reads the six bytes of the address, at
    ADDRPTR + 3 .. ADDRPTR + 8, and the NIRK keys of 16 bytes at IRKPTR, and
    nothing else decides it: two RAM images that agree there give the same
    count, the same latched index and the same AES calls.  The header before
    the address and the byte after it, which the second 32-bit load takes in,
    do not matter. *)
Theorem resolve_reads_address_and_keys {ext : Externals} (mem mem' : memory)
    (s : AAR_state) :
  let g := NRF_AAR_regs s in
  (forall p, ADDRPTR g + 3 <= p < ADDRPTR g + 9 -> mem p = mem' p) ->
  (forall p, IRKPTR g <= p < IRKPTR g + 16 * NIRK g -> mem p = mem' p) ->
  runState (nrf_aar_resolve mem) s = runState (nrf_aar_resolve mem') s.
Proof.
  intros g Haddr Hkeys.
  assert (Hprand : prand_at mem (ADDRPTR g + 3) = prand_at mem' (ADDRPTR g + 3)).
  { rewrite !prand_at_bytes. rewrite !Haddr by lia. reflexivity. }
  assert (Hhash : hash_at mem (ADDRPTR g + 3) = hash_at mem' (ADDRPTR g + 3)).
  { rewrite !hash_at_bytes. rewrite !Haddr by lia. reflexivity. }
  destruct (Z.eq_dec (Z.shiftr (prand_at mem (ADDRPTR g + 3)) 22) 1) as [Hp | Hp].
  - rewrite (resolve_resolvable mem s Hp).
    rewrite Hprand in Hp. rewrite (resolve_resolvable mem' s Hp).
    fold g. rewrite Hprand.
    destruct (Z.le_gt_cases 0 (NIRK g)) as [Hn | Hn].
    + apply resolve_loop_ext; auto; lia.
    + replace (Z.to_nat (NIRK g)) with 0%nat by lia. reflexivity.
  - rewrite (resolve_not_resolvable mem s Hp).
    rewrite Hprand in Hp. now rewrite (resolve_not_resolvable mem' s Hp).
Qed.

(** * Further properties of the tasks and handlers *)

Section Frames.
Context {ext : Externals}.

Lemma only_aes_quiet evs :
  forallb is_aes evs = true ->
  irq_calls evs = 0%nat /\
  (forall e, fired e evs = 0%nat) /\ (forall r, stores_to r evs = 0%nat).
Proof.
  induction evs as [| x evs IH]; intros Haes; [repeat split |].
  simpl in Haes. apply andb_true_iff in Haes as [Hx Hrest].
  destruct (IH Hrest) as (Hi & Hf & Hs).
  destruct x; try discriminate Hx.
  repeat split; [exact Hi | intros e; destruct e; apply Hf | exact Hs].
Qed.

(** A Start keeps the registers and the mask, and logs AES calls and at most
    one call to the scheduler. *)
Lemma start_frame now mem s :
  let s' := run (nrf_aar_TASK_START now mem) s in
  NRF_AAR_regs s' = NRF_AAR_regs s /\ AAR_INTEN s' = AAR_INTEN s /\
  exists evs, log s' = log s ++ evs /\ irq_calls evs = 0%nat /\
    (forall e, fired e evs = 0%nat) /\ (forall r, stores_to r evs = 0%nat).
Proof.
  intros s'; subst s'.
  destruct (Z.eq_dec (ENABLE (NRF_AAR_regs s)) 3) as [He | He].
  - unfold run at 1 2 3. rewrite (start_enabled now mem s He).
    cbn [snd emit set_Timer_AAR NRF_AAR_regs AAR_INTEN log].
    destruct (resolve_frame mem (set_AAR_Running true s))
      as ((Hg & _ & Hi & _) & evs & Hlog & Haes).
    split; [exact Hg |]. split; [exact Hi |].
    eexists. rewrite Hlog. cbn [log set_AAR_Running]. rewrite <- app_assoc.
    split; [reflexivity |].
    destruct (only_aes_quiet evs Haes) as (Hq1 & Hq2 & Hq3).
    unfold irq_calls, fired, stores_to in *.
    repeat split; intros; rewrite filter_app, length_app;
      [rewrite Hq1 | rewrite Hq2; destruct e | rewrite Hq3]; reflexivity.
  - unfold run. rewrite (start_disabled now mem s He). cbn [snd].
    repeat split. exists []. rewrite app_nil_r. repeat split.
Qed.

Lemma tasks_start_handler now mem s :
  runState (nrf_aar_regw_sideeffects_TASKS_START now mem) s
  = if nonzero (TASKS_START (NRF_AAR_regs s)) then
      runState (nrf_aar_TASK_START now mem)
        (emit (reg_write rTASKS_START 0)
              (set_regs (write_reg rTASKS_START 0 (NRF_AAR_regs s)) s))
    else (tt, s).
Proof.
  unfold nrf_aar_regw_sideeffects_TASKS_START, when, store; run_monad.
  destruct (nonzero (TASKS_START (NRF_AAR_regs s))); reflexivity.
Qed.

Lemma tasks_stop_handler s :
  runState nrf_aar_regw_sideeffects_TASKS_STOP s
  = if nonzero (TASKS_STOP (NRF_AAR_regs s)) then
      runState nrf_aar_TASK_STOP
        (emit (reg_write rTASKS_STOP 0)
              (set_regs (write_reg rTASKS_STOP 0 (NRF_AAR_regs s)) s))
    else (tt, s).
Proof.
  unfold nrf_aar_regw_sideeffects_TASKS_STOP, when, store; run_monad.
  destruct (nonzero (TASKS_STOP (NRF_AAR_regs s))); reflexivity.
Qed.

Lemma nonzero_false z : nonzero z = false -> z = 0.
Proof. unfold nonzero. destruct (Z.eqb_spec z 0); [auto | discriminate]. Qed.

(** The registers after a Stop and after a completion. *)
Lemma stop_regs s :
  NRF_AAR_regs (run nrf_aar_TASK_STOP s)
  = if AAR_Running s then write_reg rEVENTS_END 1 (NRF_AAR_regs s)
    else NRF_AAR_regs s.
Proof.
  crunch_state s. unfold_ops. simpl.
  destruct r; simpl; [destruct (nonzero _) |]; reflexivity.
Qed.

Lemma timer_triggered_regs s :
  NRF_AAR_regs (run nrf_aar_timer_triggered s)
  = write_reg rEVENTS_END 1
      (if matching_irk s =? -1
       then write_reg rEVENTS_NOTRESOLVED 1 (NRF_AAR_regs s)
       else write_reg rEVENTS_RESOLVED 1
              (write_reg rSTATUS (to_uint32 (matching_irk s)) (NRF_AAR_regs s))).
Proof.
  crunch_state s. unfold_ops. simpl.
  destruct (k =? -1); simpl; destruct (nonzero _); simpl;
    destruct (nonzero _); reflexivity.
Qed.
End Frames.

(** X7: a completion raises the interrupt line once for each of its two
    signals whose bit is in the mask (NotResolved or Resolved, then End): not
    at all with both bits clear, twice with both set.  A Stop while Running
    raises it exactly when the End bit is in the mask. *)
Theorem interrupts_follow_mask {ext : Externals} (s : AAR_state) :
  let inten := AAR_INTEN s in
  let first_msk := if matching_irk s =? -1 then AAR_INTENCLR_NOTRESOLVED_Msk
                   else AAR_INTENCLR_RESOLVED_Msk in
  (exists evs, log (run nrf_aar_timer_triggered s) = log s ++ evs /\
     irq_calls evs = (b2n (nonzero (Z.land inten first_msk))
                      + b2n (nonzero (Z.land inten AAR_INTENSET_END_Msk)))%nat) /\
  (exists evs, log (run nrf_aar_TASK_STOP s) = log s ++ evs /\
     irq_calls evs = if AAR_Running s
                     then b2n (nonzero (Z.land inten AAR_INTENSET_END_Msk))
                     else 0%nat).
Proof.
  cbv zeta. split.
  - pose proof (timer_triggered_log s) as Hlog. cbv zeta in Hlog.
    eexists. split; [exact Hlog |].
    unfold signalled, irq_if.
    destruct (matching_irk s =? -1); repeat destruct (nonzero _); reflexivity.
  - crunch_state s. unfold_ops. simpl.
    destruct r; simpl; [| exists []; now rewrite app_nil_r].
    destruct (nonzero _); simpl; eexists; rewrite <- !app_assoc; split; reflexivity.
Qed.

(** X8: the task registers clear themselves: after its handler has run,
    TASKS_START (TASKS_STOP) reads 0, whatever was written.  With 0 in the
    register the handler does nothing; with anything else it stores the 0
    and then does what the task does. *)
Theorem task_registers_self_clear {ext : Externals} (now : Z) (mem : memory)
    (s : AAR_state) :
  let cleared r := emit (reg_write r 0) (set_regs (write_reg r 0 (NRF_AAR_regs s)) s) in
  TASKS_START (NRF_AAR_regs (run (nrf_aar_regw_sideeffects_TASKS_START now mem) s)) = 0 /\
  TASKS_STOP (NRF_AAR_regs (run nrf_aar_regw_sideeffects_TASKS_STOP s)) = 0 /\
  runState (nrf_aar_regw_sideeffects_TASKS_START now mem) s
    = (if TASKS_START (NRF_AAR_regs s) =? 0 then (tt, s)
       else runState (nrf_aar_TASK_START now mem) (cleared rTASKS_START)) /\
  runState nrf_aar_regw_sideeffects_TASKS_STOP s
    = (if TASKS_STOP (NRF_AAR_regs s) =? 0 then (tt, s)
       else runState nrf_aar_TASK_STOP (cleared rTASKS_STOP)).
Proof.
  cbv zeta. unfold run. rewrite tasks_start_handler, tasks_stop_handler.
  split; [| split; [| split]].
  - destruct (nonzero (TASKS_START (NRF_AAR_regs s))) eqn:Hnz.
    + match goal with
      | |- context [runState (nrf_aar_TASK_START now mem) ?s1] =>
          destruct (start_frame now mem s1) as (Hg & _); unfold run in Hg; rewrite Hg
      end.
      now crunch_state s.
    + now apply nonzero_false in Hnz.
  - destruct (nonzero (TASKS_STOP (NRF_AAR_regs s))) eqn:Hnz.
    + match goal with
      | |- context [runState nrf_aar_TASK_STOP ?s1] =>
          pose proof (stop_regs s1) as Hg; unfold run in Hg; rewrite Hg
      end.
      crunch_state s. simpl. now destruct r.
    + now apply nonzero_false in Hnz.
  - unfold nonzero. now destruct (TASKS_START (NRF_AAR_regs s) =? 0).
  - unfold nonzero. now destruct (TASKS_STOP (NRF_AAR_regs s) =? 0).
Qed.

(** X9: nothing but a reset or the firmware ever clears an event flag: after
    a Start, a Stop, a completion or any of the four register handlers, each
    of EVENTS_END, EVENTS_RESOLVED and EVENTS_NOTRESOLVED is as it was or
    reads 1. *)
Theorem event_flags_never_cleared {ext : Externals} (now : Z) (mem : memory)
    (s : AAR_state) :
  events_kept_or_set s (run (nrf_aar_TASK_START now mem) s) /\
  events_kept_or_set s (run nrf_aar_TASK_STOP s) /\
  events_kept_or_set s (run nrf_aar_timer_triggered s) /\
  events_kept_or_set s (run nrf_aar_regw_sideeffects_INTENSET s) /\
  events_kept_or_set s (run nrf_aar_regw_sideeffects_INTENCLR s) /\
  events_kept_or_set s (run (nrf_aar_regw_sideeffects_TASKS_START now mem) s) /\
  events_kept_or_set s (run nrf_aar_regw_sideeffects_TASKS_STOP s).
Proof.
  unfold events_kept_or_set, kept_or_set.
  split; [| split; [| split; [| split; [| split; [| split]]]]].
  - destruct (start_frame now mem s) as (Hg & _). rewrite Hg. tauto.
  - rewrite stop_regs. crunch_state s. simpl. destruct r; simpl; tauto.
  - rewrite timer_triggered_regs. crunch_state s. simpl.
    destruct (k =? -1); simpl; tauto.
  - crunch_state s. unfold_ops. simpl. destruct (nonzero iset); simpl; tauto.
  - crunch_state s. unfold_ops. simpl. destruct (nonzero iclr); simpl; tauto.
  - unfold run. rewrite tasks_start_handler.
    destruct (nonzero (TASKS_START (NRF_AAR_regs s))); [| tauto].
    match goal with
    | |- context [runState (nrf_aar_TASK_START now mem) ?s1] =>
        destruct (start_frame now mem s1) as (Hg & _); unfold run in Hg; rewrite !Hg
    end.
    crunch_state s. simpl. tauto.
  - unfold run. rewrite tasks_stop_handler.
    destruct (nonzero (TASKS_STOP (NRF_AAR_regs s))); [| tauto].
    match goal with
    | |- context [runState nrf_aar_TASK_STOP ?s1] =>
        pose proof (stop_regs s1) as Hg; unfold run in Hg; rewrite !Hg
    end.
    crunch_state s. simpl. destruct r; simpl; tauto.
Qed.

(** X10: the interrupt mask is changed by the INTENSET and INTENCLR handlers
    (and a reset) only: a Start, a Stop, a completion and the two task
    register handlers leave it as it was.  In turn those two handlers leave
    the timer, the running flag and the latched index alone, and raise
    neither an event nor the interrupt line. *)
Theorem mask_and_engine_are_separate {ext : Externals} (now : Z) (mem : memory)
    (s : AAR_state) :
  let engine_untouched (s' : AAR_state) :=
    Timer_AAR s' = Timer_AAR s /\ AAR_Running s' = AAR_Running s /\
    matching_irk s' = matching_irk s /\
    exists evs, log s' = log s ++ evs /\ irq_calls evs = 0%nat /\
                forall e, fired e evs = 0%nat in
  AAR_INTEN (run (nrf_aar_TASK_START now mem) s) = AAR_INTEN s /\
  AAR_INTEN (run nrf_aar_TASK_STOP s) = AAR_INTEN s /\
  AAR_INTEN (run nrf_aar_timer_triggered s) = AAR_INTEN s /\
  AAR_INTEN (run (nrf_aar_regw_sideeffects_TASKS_START now mem) s) = AAR_INTEN s /\
  AAR_INTEN (run nrf_aar_regw_sideeffects_TASKS_STOP s) = AAR_INTEN s /\
  engine_untouched (run nrf_aar_regw_sideeffects_INTENSET s) /\
  engine_untouched (run nrf_aar_regw_sideeffects_INTENCLR s).
Proof.
  cbv zeta.
  split; [| split; [| split; [| split; [| split; [| split]]]]].
  - now destruct (start_frame now mem s) as (_ & Hi & _).
  - crunch_state s. unfold_ops. simpl.
    destruct r; simpl; [destruct (nonzero _) |]; reflexivity.
  - crunch_state s. unfold_ops. simpl.
    destruct (k =? -1); simpl; destruct (nonzero _); simpl;
      destruct (nonzero _); reflexivity.
  - unfold run. rewrite tasks_start_handler.
    destruct (nonzero (TASKS_START (NRF_AAR_regs s))); [| reflexivity].
    match goal with
    | |- context [runState (nrf_aar_TASK_START now mem) ?s1] =>
        destruct (start_frame now mem s1) as (_ & Hi & _); unfold run in Hi; rewrite Hi
    end.
    reflexivity.
  - unfold run. rewrite tasks_stop_handler.
    destruct (nonzero (TASKS_STOP (NRF_AAR_regs s))); [| reflexivity].
    crunch_state s. unfold_ops. simpl.
    destruct r; simpl; [destruct (nonzero _) |]; reflexivity.
  - crunch_state s. unfold_ops. simpl.
    destruct (nonzero iset); simpl; repeat split;
      eexists; (split; [| split; [| intros e; destruct e]]);
      try (rewrite <- ?app_assoc; reflexivity);
      try (symmetry; apply app_nil_r); reflexivity.
  - crunch_state s. unfold_ops. simpl.
    destruct (nonzero iclr); simpl; repeat split;
      eexists; (split; [| split; [| intros e; destruct e]]);
      try (rewrite <- ?app_assoc; reflexivity);
      try (symmetry; apply app_nil_r); reflexivity.
Qed.

(** ** Interrupt mask arithmetic *)

Lemma testbit_high z n : 0 <= z < 2 ^ 32 -> 32 <= n -> Z.testbit z n = false.
Proof.
  intros Hz Hn. destruct (Z.eq_dec z 0) as [-> | Hnz]; [apply Z.bits_0 |].
  apply Z.bits_above_log2; [lia |].
  apply Z.lt_le_trans with 32; [| lia]. apply Z.log2_lt_pow2; lia.
Qed.

Lemma uint32_of_bits z :
  (forall n, 32 <= n -> Z.testbit z n = false) -> 0 <= z < 2 ^ 32.
Proof.
  intros Hhigh.
  assert (Hz : z = z mod 2 ^ 32).
  { rewrite <- Z.land_ones by lia. apply Z.bits_inj'. intros n Hn.
    rewrite Z.land_spec, Z.testbit_ones by lia.
    destruct (Z.ltb_spec n 32) as [Hlt | Hge].
    - replace (0 <=? n) with true by (symmetry; apply Z.leb_le; lia).
      now rewrite andb_true_r.
    - rewrite (Hhigh n Hge). reflexivity. }
  rewrite Hz. apply Z.mod_pos_bound. lia.
Qed.

Lemma not32_spec v n :
  0 <= n -> Z.testbit (not32 v) n = xorb (Z.testbit v n) (n <? 32).
Proof.
  intros Hn. unfold not32. rewrite Z.lxor_spec.
  change 0xFFFFFFFF with (Z.ones 32). rewrite Z.testbit_ones by lia.
  now replace (0 <=? n) with true by (symmetry; apply Z.leb_le; lia).
Qed.

(** X11: on 32-bit values the last write wins.  INTENSET [v] followed by
    INTENCLR [v] leaves the mask at [mask & ~v]; INTENCLR [v] followed by
    INTENSET [v] leaves it at [mask | v]; and the mask stays a 32-bit value
    through either. *)
Theorem inten_last_write_wins (v : Z) (s : AAR_state) :
  0 <= AAR_INTEN s < 2 ^ 32 ->
  0 < v < 2 ^ 32 ->
  let set_ := run (regw rINTENSET v nrf_aar_regw_sideeffects_INTENSET) in
  let clr := run (regw rINTENCLR v nrf_aar_regw_sideeffects_INTENCLR) in
  AAR_INTEN (clr (set_ s)) = Z.land (AAR_INTEN s) (not32 v) /\
  AAR_INTEN (set_ (clr s)) = Z.lor (AAR_INTEN s) v /\
  0 <= AAR_INTEN (set_ s) < 2 ^ 32 /\
  0 <= AAR_INTEN (clr s) < 2 ^ 32.
Proof.
  intros Hm Hv set_ clr; subst set_ clr.
  assert (Hnz : nonzero v = true).
  { unfold nonzero. destruct (Z.eqb_spec v 0); [lia | reflexivity]. }
  destruct s as [g t m r k l]; destruct g.
  unfold run, regw, nrf_aar_regw_sideeffects_INTENSET,
    nrf_aar_regw_sideeffects_INTENCLR, store, upd, when; simpl.
  rewrite !Hnz; simpl. rewrite !Hnz; simpl. simpl in Hm.
  split; [| split; [| split]].
  - apply Z.bits_inj'. intros n Hn.
    rewrite !Z.land_spec, Z.lor_spec, not32_spec by lia.
    destruct (Z.ltb_spec n 32) as [Hlt | Hge].
    + destruct (Z.testbit m n), (Z.testbit v n); reflexivity.
    + rewrite (testbit_high v n) by lia. now rewrite !andb_false_r.
  - apply Z.bits_inj'. intros n Hn.
    rewrite !Z.lor_spec, Z.land_spec, not32_spec by lia.
    destruct (Z.ltb_spec n 32) as [Hlt | Hge].
    + destruct (Z.testbit m n), (Z.testbit v n); reflexivity.
    + rewrite (testbit_high v n), (testbit_high m n) by lia. reflexivity.
  - apply uint32_of_bits. intros n Hn.
    rewrite Z.lor_spec, (testbit_high v n), (testbit_high m n) by lia. reflexivity.
  - apply uint32_of_bits. intros n Hn.
    rewrite Z.land_spec, (testbit_high m n) by lia. reflexivity.
Qed.

(** * Further properties of whole runs *)

Section Runs.
Context {ext : Externals}.

Lemma timer_triggered_off s :
  AAR_Running (run nrf_aar_timer_triggered s) = false /\
  Timer_AAR (run nrf_aar_timer_triggered s) = TIME_NEVER.
Proof.
  crunch_state s; unfold_ops; simpl;
    destruct (negb _); simpl; destruct (nonzero _); simpl;
    destruct (nonzero _); split; reflexivity.
Qed.

(** What an accepted Start latches: -1, or the index of a key of the list
    whose hash check is the hash. *)
Lemma start_latches now mem s :
  ENABLE (NRF_AAR_regs s) = 3 ->
  let g := NRF_AAR_regs s in
  let irk := matching_irk (run (nrf_aar_TASK_START now mem) s) in
  irk = -1 \/
  (0 <= irk < NIRK g /\
   irk_hash_check mem g (prand_buf_of (prand_at mem (ADDRPTR g + 3))) irk
   = hash_at mem (ADDRPTR g + 3)).
Proof.
  intros He g irk.
  assert (Hm : irk = matching_irk (run (nrf_aar_resolve mem) (set_AAR_Running true s))).
  { subst irk. unfold run at 1. now rewrite (start_enabled now mem s He). }
  rewrite Hm. clear Hm irk.
  destruct (Z.eq_dec (Z.shiftr (prand_at mem (ADDRPTR g + 3)) 22) 1) as [Hp | Hp].
  - destruct (resolve_resolvable_spec mem (set_AAR_Running true s) Hp)
      as (_ & _ & [(Hm & _) | (Hr & _ & Hhit & _)]).
    + left. exact Hm.
    + right. split; [exact Hr | exact Hhit].
  - left. unfold run. now rewrite (resolve_not_resolvable mem (set_AAR_Running true s) Hp).
Qed.
End Runs.

(** X12: an accepted Start followed by a Stop leaves the peripheral idle with
    the timer off and End set; STATUS and the Resolved and NotResolved flags
    are as before the Start, End was signalled once and neither Resolved nor
    NotResolved was, and the index the Start latched is still latched. *)
Theorem start_then_stop {ext : Externals} (now : Z) (mem : memory) (s : AAR_state) :
  ENABLE (NRF_AAR_regs s) = 3 ->
  let s1 := run (nrf_aar_TASK_START now mem) s in
  let s2 := run nrf_aar_TASK_STOP s1 in
  AAR_Running s2 = false /\ Timer_AAR s2 = TIME_NEVER /\
  NRF_AAR_regs s2 = write_reg rEVENTS_END 1 (NRF_AAR_regs s) /\
  matching_irk s2 = matching_irk s1 /\
  exists evs, log s2 = log s ++ evs /\
    fired AAR_EVENTS_END evs = 1%nat /\
    fired AAR_EVENTS_RESOLVED evs = 0%nat /\
    fired AAR_EVENTS_NOTRESOLVED evs = 0%nat.
Proof.
  intros He s1 s2.
  assert (Hrun : AAR_Running s1 = true).
  { subst s1. unfold run. rewrite (start_enabled now mem s He).
    cbn [snd emit set_Timer_AAR AAR_Running].
    now destruct (resolve_frame mem (set_AAR_Running true s)) as ((_ & _ & _ & Hr) & _). }
  destruct (start_frame now mem s) as (Hg & _ & evs & Hlog & _ & Hf & _).
  fold s1 in Hg, Hlog.
  assert (Hstop : AAR_Running s2 = false /\ Timer_AAR s2 = TIME_NEVER /\
            matching_irk s2 = matching_irk s1 /\
            exists evs2, log s2 = log s1 ++ evs2 /\
              fired AAR_EVENTS_END evs2 = 1%nat /\
              fired AAR_EVENTS_RESOLVED evs2 = 0%nat /\
              fired AAR_EVENTS_NOTRESOLVED evs2 = 0%nat).
  { subst s2. clear Hg Hlog. generalize dependent s1. intros s1 Hrun.
    crunch_state s1. simpl in Hrun. subst r. unfold_ops. simpl.
    destruct (nonzero _); simpl; repeat split;
      eexists; rewrite <- !app_assoc; repeat split. }
  destruct Hstop as (H1 & H2 & H3 & evs2 & Hlog2 & He1 & He2 & He3).
  split; [exact H1 |]. split; [exact H2 |]. split.
  - subst s2. rewrite stop_regs, Hrun, Hg. reflexivity.
  - split; [exact H3 |].
    exists (evs ++ evs2). rewrite Hlog2, Hlog, app_assoc.
    split; [reflexivity |].
    unfold fired in *. rewrite !filter_app, !length_app.
    rewrite He1, He2, He3.
    rewrite (Hf AAR_EVENTS_END), (Hf AAR_EVENTS_RESOLVED), (Hf AAR_EVENTS_NOTRESOLVED).
    repeat split.
Qed.

(** X13: an accepted Start followed by its completion leaves the peripheral
    idle with the timer off and End set.  When the Start latched -1, STATUS
    and the Resolved flag are as before the Start and NotResolved is set.
    Otherwise STATUS holds the latched index, which is the index of a key of
    the list whose hash check is the hash of the address, Resolved is set and
    NotResolved is as before. *)
Theorem start_then_completion {ext : Externals} (now : Z) (mem : memory)
    (s : AAR_state) :
  ENABLE (NRF_AAR_regs s) = 3 ->
  NIRK (NRF_AAR_regs s) <= INT_MAX ->
  let g := NRF_AAR_regs s in
  let s1 := run (nrf_aar_TASK_START now mem) s in
  let s2 := run nrf_aar_timer_triggered s1 in
  let irk := matching_irk s1 in
  AAR_Running s2 = false /\ Timer_AAR s2 = TIME_NEVER /\
  EVENTS_END (NRF_AAR_regs s2) = 1 /\
  if irk =? -1 then
    STATUS (NRF_AAR_regs s2) = STATUS g /\
    EVENTS_NOTRESOLVED (NRF_AAR_regs s2) = 1 /\
    EVENTS_RESOLVED (NRF_AAR_regs s2) = EVENTS_RESOLVED g
  else
    STATUS (NRF_AAR_regs s2) = irk /\
    0 <= irk < NIRK g /\
    irk_hash_check mem g (prand_buf_of (prand_at mem (ADDRPTR g + 3))) irk
      = hash_at mem (ADDRPTR g + 3) /\
    EVENTS_RESOLVED (NRF_AAR_regs s2) = 1 /\
    EVENTS_NOTRESOLVED (NRF_AAR_regs s2) = EVENTS_NOTRESOLVED g.
Proof.
  intros He Hn g s1 s2 irk.
  destruct (timer_triggered_off s1) as (Hr & Ht). fold s2 in Hr, Ht.
  destruct (start_frame now mem s) as (Hg & _). fold s1 g in Hg.
  pose proof (start_latches now mem s He) as Hlatch. cbv zeta in Hlatch.
  fold s1 g irk in Hlatch.
  pose proof (timer_triggered_regs s1) as Hregs. fold s2 irk in Hregs.
  rewrite Hg in Hregs.
  split; [exact Hr |]. split; [exact Ht |].
  rewrite Hregs. clear Hregs.
  destruct (Z.eqb_spec irk (-1)) as [Hirk | Hirk].
  - destruct g; repeat split.
  - destruct Hlatch as [Hl | (Hrange & Hhit)]; [contradiction |].
    fold g in Hn.
    assert (Hu : to_uint32 irk = irk) by (apply to_uint32_small; lia).
    rewrite Hu. destruct g; repeat split; auto; simpl in *; lia.
Qed.

(** X14: right after a reset the block is all zeros, the mask is empty, the
    timer is off and nothing is running, while the latched index is whatever
    it was; and until the firmware writes a register every task and every
    register handler does nothing at all. *)
Theorem reset_is_quiescent {ext : Externals} (now : Z) (mem : memory)
    (s : AAR_state) :
  let s0 := run nrf_aar_init s in
  NRF_AAR_regs s0 = regs_zero /\ AAR_INTEN s0 = 0 /\
  Timer_AAR s0 = TIME_NEVER /\ AAR_Running s0 = false /\
  matching_irk s0 = matching_irk s /\
  runState (nrf_aar_TASK_START now mem) s0 = (tt, s0) /\
  runState nrf_aar_TASK_STOP s0 = (tt, s0) /\
  runState nrf_aar_regw_sideeffects_INTENSET s0 = (tt, s0) /\
  runState nrf_aar_regw_sideeffects_INTENCLR s0 = (tt, s0) /\
  runState (nrf_aar_regw_sideeffects_TASKS_START now mem) s0 = (tt, s0) /\
  runState nrf_aar_regw_sideeffects_TASKS_STOP s0 = (tt, s0).
Proof.
  cbv zeta.
  split; [reflexivity |]. split; [reflexivity |]. split; [reflexivity |].
  split; [reflexivity |]. split; [reflexivity |].
  split; [apply start_disabled; discriminate |].
  split; [apply stop_noop; reflexivity |].
  repeat split.
Qed.

(** X15: an accepted Start within [start_in_range] sets the completion
    between 1 and 1 + 6 * NIRK time units ahead: the count its resolution
    returns lies between 0 and NIRK. *)
Theorem start_delay_bounds {ext : Externals} (now : Z) (mem : memory)
    (s : AAR_state) :
  ENABLE (NRF_AAR_regs s) = 3 ->
  start_in_range now s ->
  let k := result (nrf_aar_resolve mem) (set_AAR_Running true s) in
  let t := Timer_AAR (run (nrf_aar_TASK_START now mem) s) in
  0 <= k <= NIRK (NRF_AAR_regs s) /\
  t = now + 1 + 6 * k /\
  now + 1 <= t <= now + 1 + 6 * NIRK (NRF_AAR_regs s).
Proof.
  intros He Hrange k t.
  destruct (start_count_in_range now mem s Hrange) as (Hk & Hint & Hsum).
  fold k in Hk, Hint, Hsum.
  assert (Htime : t = now + 1 + 6 * k).
  { subst t. unfold run. rewrite (start_enabled now mem s He). fold k.
    cbn [snd emit set_Timer_AAR Timer_AAR]. now rewrite Hint, Hsum. }
  split; [exact Hk |]. split; [exact Htime |]. lia.
Qed.

(** X16: a Stop that follows a Stop or a completion does nothing: the first
    has left the peripheral idle, and nothing more is signalled. *)
Theorem stop_when_idle_again {ext : Externals} (s : AAR_state) :
  runState nrf_aar_TASK_STOP (run nrf_aar_TASK_STOP s) = (tt, run nrf_aar_TASK_STOP s) /\
  runState nrf_aar_TASK_STOP (run nrf_aar_timer_triggered s)
    = (tt, run nrf_aar_timer_triggered s).
Proof.
  split; apply stop_noop.
  - crunch_state s. unfold_ops. simpl.
    destruct r; simpl; [destruct (nonzero _) |]; reflexivity.
  - apply timer_triggered_off.
Qed.

(** X17: the delay of an accepted Start within [start_in_range] is decided by
    what it latches: 1 + 6 * (i + 1) for a latched index i, and the full
    1 + 6 * NIRK when -1 is latched, be it for an address that is not
    resolvable or for a list without a matching key. *)
Theorem start_delay_by_latched_index {ext : Externals} (now : Z) (mem : memory)
    (s : AAR_state) :
  ENABLE (NRF_AAR_regs s) = 3 ->
  start_in_range now s ->
  let s1 := run (nrf_aar_TASK_START now mem) s in
  let irk := matching_irk s1 in
  Timer_AAR s1
  = now + 1 + 6 * (if irk =? -1 then NIRK (NRF_AAR_regs s) else irk + 1).
Proof.
  intros He Hrange s1 irk. subst irk s1.
  unfold run. rewrite (start_enabled now mem s He).
  cbn [snd emit set_Timer_AAR Timer_AAR matching_irk].
  destruct (start_count_in_range now mem s Hrange) as (Hk & Hint & Htime).
  destruct Hrange as (Hnow & Hn0 & Hn6 & Ht).
  assert (Hn : 0 <= NIRK (NRF_AAR_regs s) <= INT_MAX) by lia.
  rewrite Hint, Htime. do 2 f_equal.
  destruct (Z.eq_dec (Z.shiftr (prand_at mem (ADDRPTR (NRF_AAR_regs s) + 3)) 22) 1)
    as [Hp | Hp].
  - destruct (resolve_resolvable_spec mem (set_AAR_Running true s) Hp)
      as (_ & _ & [(Hm & Hres & _) | (Hr & Hres & _)]);
      cbn [NRF_AAR_regs set_AAR_Running] in *; unfold run, result in *.
    + rewrite Hm. cbn [Z.eqb Pos.eqb]. lia.
    + rewrite Hres.
      destruct (Z.eqb_spec (matching_irk (snd (runState (nrf_aar_resolve mem)
                                                 (set_AAR_Running true s)))) (-1));
        [lia | reflexivity].
  - unfold result, run.
    rewrite (resolve_not_resolvable mem (set_AAR_Running true s) Hp).
    cbn [fst snd matching_irk set_matching_irk NRF_AAR_regs set_AAR_Running Z.eqb Pos.eqb].
    apply to_int_small. exact Hn.
Qed.

(** * The further properties on the sample data *)

Lemma sample_resolvable : resolvable sample_mem (NRF_AAR_regs idle_state).
Proof. vm_compute. reflexivity. Qed.

(** X1 on the sample: the second key, index 1, matches. *)
Lemma resolve_finds_first_match_witness :
  let g := NRF_AAR_regs idle_state in
  let address_ptr := ADDRPTR g + 3 in
  let prand_buf := prand_buf_of (prand_at sample_mem address_ptr) in
  resolvable sample_mem g /\
  0 <= 1 < NIRK g /\
  irk_hash_check (ext := sample_externals) sample_mem g prand_buf 1
    = hash_at sample_mem address_ptr /\
  (let i := matching_irk (run (nrf_aar_resolve (ext := sample_externals) sample_mem)
                              idle_state) in
   0 <= i <= 1 /\
   irk_hash_check (ext := sample_externals) sample_mem g prand_buf i
     = hash_at sample_mem address_ptr /\
   result (nrf_aar_resolve (ext := sample_externals) sample_mem) idle_state = i + 1).
Proof.
  assert (Hr : 0 <= 1 < NIRK (NRF_AAR_regs idle_state))
    by (vm_compute; split; [discriminate | reflexivity]).
  cbv zeta. split; [exact sample_resolvable |]. split; [exact Hr |].
  split; [vm_compute; reflexivity |].
  apply (resolve_finds_first_match (ext := sample_externals) sample_mem idle_state 1);
    [exact sample_resolvable | exact Hr | vm_compute; reflexivity].
Defined.

Lemma unmatched_keys :
  let g := NRF_AAR_regs unmatched_state in
  forall j, 0 <= j < NIRK g ->
    irk_hash_check (ext := sample_externals) sample_mem g
      (prand_buf_of (prand_at sample_mem (ADDRPTR g + 3))) j
    <> hash_at sample_mem (ADDRPTR g + 3).
Proof.
  cbv zeta. intros j Hj.
  assert (Hcases : j = 0 \/ j = 1 \/ j = 2)
    by (change (NIRK (NRF_AAR_regs unmatched_state)) with 3 in Hj; lia).
  destruct Hcases as [-> | [-> | ->]]; vm_compute; discriminate.
Qed.

(** X2 on the sample: three all-zero keys, none of which matches. *)
Lemma resolve_exhausts_list_witness :
  let g := NRF_AAR_regs unmatched_state in
  let address_ptr := ADDRPTR g + 3 in
  let prand_buf := prand_buf_of (prand_at sample_mem address_ptr) in
  resolvable sample_mem g /\
  0 <= NIRK g <= INT_MAX /\
  (forall j, 0 <= j < NIRK g ->
     irk_hash_check (ext := sample_externals) sample_mem g prand_buf j
     <> hash_at sample_mem address_ptr) /\
  (let s' := run (nrf_aar_resolve (ext := sample_externals) sample_mem) unmatched_state in
   matching_irk s' = -1 /\
   result (nrf_aar_resolve (ext := sample_externals) sample_mem) unmatched_state = NIRK g /\
   exists evs, log s' = log unmatched_state ++ evs /\
               Z.of_nat (crypto_calls evs) = NIRK g).
Proof.
  assert (Hp : resolvable sample_mem (NRF_AAR_regs unmatched_state))
    by (vm_compute; reflexivity).
  assert (Hn : 0 <= NIRK (NRF_AAR_regs unmatched_state) <= INT_MAX)
    by (vm_compute; split; discriminate).
  cbv zeta. split; [exact Hp |]. split; [exact Hn |]. split; [exact unmatched_keys |].
  apply (resolve_exhausts_list (ext := sample_externals) sample_mem unmatched_state);
    [exact Hp | exact Hn | exact unmatched_keys].
Defined.

(** X3 on the sample: two AES calls, on the keys at 0x200 and 0x210. *)
Lemma resolve_call_sequence_witness :
  let g := NRF_AAR_regs idle_state in
  let prand_buf := prand_buf_of (prand_at sample_mem (ADDRPTR g + 3)) in
  resolvable sample_mem g /\
  NIRK g <= INT_MAX /\
  log (run (nrf_aar_resolve (ext := sample_externals) sample_mem) idle_state)
  = log idle_state ++
    aes_calls sample_mem g prand_buf 0
      (Z.to_nat (result (nrf_aar_resolve (ext := sample_externals) sample_mem) idle_state)).
Proof.
  assert (Hn : NIRK (NRF_AAR_regs idle_state) <= INT_MAX) by (vm_compute; discriminate).
  cbv zeta. split; [exact sample_resolvable |]. split; [exact Hn |].
  apply (resolve_call_sequence (ext := sample_externals) sample_mem idle_state);
    [exact sample_resolvable | exact Hn].
Defined.

(** X4 on the sample: ENABLE = 3 and NIRK = 0. *)
Lemma resolve_empty_key_list_witness :
  NIRK (NRF_AAR_regs no_keys_state) = 0 /\
  (runState (nrf_aar_resolve (ext := sample_externals) sample_mem) no_keys_state
     = (0, set_matching_irk (-1) no_keys_state) /\
   (ENABLE (NRF_AAR_regs no_keys_state) = 3 -> 0 <= 7 < TIME_NEVER - 1 ->
    Timer_AAR (run (nrf_aar_TASK_START (ext := sample_externals) 7 sample_mem)
                   no_keys_state) = 7 + 1)).
Proof.
  split; [reflexivity |].
  apply (resolve_empty_key_list (ext := sample_externals) 7 sample_mem no_keys_state).
  reflexivity.
Defined.

Lemma other_mem_agrees_address p :
  ADDRPTR (NRF_AAR_regs idle_state) + 3 <= p < ADDRPTR (NRF_AAR_regs idle_state) + 9 ->
  sample_mem p = other_mem p.
Proof.
  change (ADDRPTR (NRF_AAR_regs idle_state)) with 0x100. intros Hp. unfold other_mem.
  destruct (Z.ltb_spec p 0x103); [lia |].
  destruct (Z.eqb_spec p 0x109); [lia |].
  destruct (Z.leb_spec 0x230 p); [lia | reflexivity].
Qed.

Lemma other_mem_agrees_keys p :
  IRKPTR (NRF_AAR_regs idle_state) <= p
    < IRKPTR (NRF_AAR_regs idle_state) + 16 * NIRK (NRF_AAR_regs idle_state) ->
  sample_mem p = other_mem p.
Proof.
  change (IRKPTR (NRF_AAR_regs idle_state)) with 0x200.
  change (NIRK (NRF_AAR_regs idle_state)) with 3. intros Hp. unfold other_mem.
  destruct (Z.ltb_spec p 0x103); [lia |].
  destruct (Z.eqb_spec p 0x109); [lia |].
  destruct (Z.leb_spec 0x230 p); [lia | reflexivity].
Qed.

(** X6 on the sample: [other_mem] differs from [sample_mem] in the header, in
    the byte after the address and after the keys. *)
Lemma resolve_reads_address_and_keys_witness :
  let g := NRF_AAR_regs idle_state in
  (forall p, ADDRPTR g + 3 <= p < ADDRPTR g + 9 -> sample_mem p = other_mem p) /\
  (forall p, IRKPTR g <= p < IRKPTR g + 16 * NIRK g -> sample_mem p = other_mem p) /\
  sample_mem 0x109 <> other_mem 0x109 /\
  runState (nrf_aar_resolve (ext := sample_externals) sample_mem) idle_state
  = runState (nrf_aar_resolve (ext := sample_externals) other_mem) idle_state.
Proof.
  cbv zeta. split; [exact other_mem_agrees_address |].
  split; [exact other_mem_agrees_keys |]. split; [discriminate |].
  apply (resolve_reads_address_and_keys (ext := sample_externals)
           sample_mem other_mem idle_state);
    [exact other_mem_agrees_address | exact other_mem_agrees_keys].
Defined.

(** X11 on the sample: the empty mask and the bits END and NOTRESOLVED. *)
Lemma inten_last_write_wins_witness :
  0 <= AAR_INTEN idle_state < 2 ^ 32 /\
  0 < 5 < 2 ^ 32 /\
  (let set_ := run (regw rINTENSET 5 nrf_aar_regw_sideeffects_INTENSET) in
   let clr := run (regw rINTENCLR 5 nrf_aar_regw_sideeffects_INTENCLR) in
   AAR_INTEN (clr (set_ idle_state)) = Z.land (AAR_INTEN idle_state) (not32 5) /\
   AAR_INTEN (set_ (clr idle_state)) = Z.lor (AAR_INTEN idle_state) 5 /\
   0 <= AAR_INTEN (set_ idle_state) < 2 ^ 32 /\
   0 <= AAR_INTEN (clr idle_state) < 2 ^ 32).
Proof.
  assert (Hm : 0 <= AAR_INTEN idle_state < 2 ^ 32)
    by (vm_compute; split; [discriminate | reflexivity]).
  assert (Hv : 0 < 5 < 2 ^ 32) by (vm_compute; split; reflexivity).
  split; [exact Hm |]. split; [exact Hv |].
  apply (inten_last_write_wins 5 idle_state); [exact Hm | exact Hv].
Defined.

(** X12 on the sample: Start at time 0, then Stop. *)
Lemma start_then_stop_witness :
  ENABLE (NRF_AAR_regs idle_state) = 3 /\
  (let s1 := run (nrf_aar_TASK_START (ext := sample_externals) 0 sample_mem) idle_state in
   let s2 := run (nrf_aar_TASK_STOP (ext := sample_externals)) s1 in
   AAR_Running s2 = false /\ Timer_AAR s2 = TIME_NEVER /\
   NRF_AAR_regs s2 = write_reg rEVENTS_END 1 (NRF_AAR_regs idle_state) /\
   matching_irk s2 = matching_irk s1 /\
   exists evs, log s2 = log idle_state ++ evs /\
     fired AAR_EVENTS_END evs = 1%nat /\
     fired AAR_EVENTS_RESOLVED evs = 0%nat /\
     fired AAR_EVENTS_NOTRESOLVED evs = 0%nat).
Proof.
  split; [reflexivity |].
  apply (start_then_stop (ext := sample_externals) 0 sample_mem idle_state).
  reflexivity.
Defined.

(** X13 on the sample: Start at time 0, then its completion; index 1. *)
Lemma start_then_completion_witness :
  ENABLE (NRF_AAR_regs idle_state) = 3 /\
  NIRK (NRF_AAR_regs idle_state) <= INT_MAX /\
  (let g := NRF_AAR_regs idle_state in
   let s1 := run (nrf_aar_TASK_START (ext := sample_externals) 0 sample_mem) idle_state in
   let s2 := run (nrf_aar_timer_triggered (ext := sample_externals)) s1 in
   let irk := matching_irk s1 in
   AAR_Running s2 = false /\ Timer_AAR s2 = TIME_NEVER /\
   EVENTS_END (NRF_AAR_regs s2) = 1 /\
   if irk =? -1 then
     STATUS (NRF_AAR_regs s2) = STATUS g /\
     EVENTS_NOTRESOLVED (NRF_AAR_regs s2) = 1 /\
     EVENTS_RESOLVED (NRF_AAR_regs s2) = EVENTS_RESOLVED g
   else
     STATUS (NRF_AAR_regs s2) = irk /\
     0 <= irk < NIRK g /\
     irk_hash_check (ext := sample_externals) sample_mem g
       (prand_buf_of (prand_at sample_mem (ADDRPTR g + 3))) irk
       = hash_at sample_mem (ADDRPTR g + 3) /\
     EVENTS_RESOLVED (NRF_AAR_regs s2) = 1 /\
     EVENTS_NOTRESOLVED (NRF_AAR_regs s2) = EVENTS_NOTRESOLVED g).
Proof.
  assert (Hn : NIRK (NRF_AAR_regs idle_state) <= INT_MAX) by (vm_compute; discriminate).
  split; [reflexivity |]. split; [exact Hn |].
  apply (start_then_completion (ext := sample_externals) 0 sample_mem idle_state);
    [reflexivity | exact Hn].
Defined.

(** X15 on the sample: Start at time 0 with three keys. *)
Lemma start_delay_bounds_witness :
  ENABLE (NRF_AAR_regs idle_state) = 3 /\
  start_in_range 0 idle_state /\
  (let k := result (nrf_aar_resolve (ext := sample_externals) sample_mem)
                   (set_AAR_Running true idle_state) in
   let t := Timer_AAR (run (nrf_aar_TASK_START (ext := sample_externals) 0 sample_mem)
                           idle_state) in
   0 <= k <= NIRK (NRF_AAR_regs idle_state) /\
   t = 0 + 1 + 6 * k /\
   0 + 1 <= t <= 0 + 1 + 6 * NIRK (NRF_AAR_regs idle_state)).
Proof.
  assert (Hr : start_in_range 0 idle_state)
    by (vm_compute; repeat split; discriminate).
  split; [reflexivity |]. split; [exact Hr |].
  apply (start_delay_bounds (ext := sample_externals) 0 sample_mem idle_state);
    [reflexivity | exact Hr].
Defined.

(** X17 on the sample: index 1 latched, delay 1 + 6 * 2. *)
Lemma start_delay_by_latched_index_witness :
  ENABLE (NRF_AAR_regs idle_state) = 3 /\
  start_in_range 0 idle_state /\
  (let s1 := run (nrf_aar_TASK_START (ext := sample_externals) 0 sample_mem) idle_state in
   let irk := matching_irk s1 in
   Timer_AAR s1
   = 0 + 1 + 6 * (if irk =? -1 then NIRK (NRF_AAR_regs idle_state) else irk + 1)).
Proof.
  assert (Hr : start_in_range 0 idle_state)
    by (vm_compute; repeat split; discriminate).
  split; [reflexivity |]. split; [exact Hr |].
  apply (start_delay_by_latched_index (ext := sample_externals) 0 sample_mem idle_state);
    [reflexivity | exact Hr].
Defined.
